(** * IXCobraBot: a shallow embedding of [CobraBot::run] and its worker loops

    Source: [ixbots/ixbots/IXCobraBot.cpp].

    [CobraBot::run] connects a publish/subscribe transport, starts three
    worker threads (progress timer, heartbeat watchdog, sender), registers
    an event callback on the transport, supervises for a number of
    one-second ticks, and shuts everything down.  The threads communicate
    through five atomics ([sentCount], [receivedCount], [stop],
    [throttled], [fatalCobraError]) and one [QueueManager].

    The embedding is a state machine over one record holding that shared
    state.  Every thread contributes a step function, and an execution is
    an interleaving of steps:

    - a step is atomic: one iteration of the timer or heartbeat loop, one
      half of a sender iteration (up to the test of [isNull()], or from
      the call of the sink on), one call of a transport callback;
    - a schedule lists, for each tick of the supervision loop, the steps
      taken by the other threads while the supervisor sleeps, and the
      worker steps taken after [stop = true]; the transport calls back
      only between the registration of the event callback and
      [conn.disconnect()], that is, during those sleeps;
    - wall-clock durations are not modelled: a tick is one iteration of
      the supervision loop, and the schedule decides how many steps fall
      into it;
    - [exit(1)] in the heartbeat ends the execution on the spot. *)

From Stdlib Require Import ZArith List String Ascii Bool Lia Arith.
From Stdlib Require Import DecimalString DecimalN.
Import ListNotations.

Local Open Scope string_scope.
Local Open Scope Z_scope.
Local Open Scope list_scope.

Set Implicit Arguments.
Set Warnings "-register-all".

(* ------------------------------------------------------------------ *)
(** ** Values *)

(** [Json::Value], as far as the bot looks at it: the bot only tests
    [isNull()] and otherwise passes the value on. *)
Inductive Json : Type :=
| JNull
| JBool (b : bool)
| JInt (z : Z)
| JString (s : string)
| JArray (l : list Json)
| JObject (members : list (string * Json)).

Definition isNull (v : Json) : bool :=
  match v with
  | JNull => true
  | _ => false
  end.

(** [std::atomic<uint64_t>]: values live in [0, 2^64); [++] wraps. *)
Definition UINT64_MOD : Z := 2 ^ 64.

Definition uint64 (z : Z) : Prop := 0 <= z < UINT64_MOD.

Definition incr64 (z : Z) : Z := (z + 1) mod UINT64_MOD.

(** The cast [(int64_t) sentCount] of the return statement. *)
Definition to_int64 (z : Z) : Z :=
  if z <? 2 ^ 63 then z else z - UINT64_MOD.

(** [operator<<] on an unsigned integer: its decimal digits. *)
Definition decimal (z : Z) : string :=
  NilEmpty.string_of_uint (N.to_uint (Z.to_N z)).

(* ------------------------------------------------------------------ *)
(** ** QueueManager *)

Module QueueManager.

(** Modelled from the spec: the class [QueueManager] is declared in
    [IXQueueManager.h], which [IXCobraBot.cpp] includes but which lies
    outside the verified sources; [run] only constructs one with
    [QueueManager queueManager(maxQueueSize)] and calls [pop()] and
    [add(msg)].  The definitions follow section 4.1 of the specification:
    a FIFO with a fixed capacity [maxSize]. *)
Record t : Type := mk {
  maxSize : nat;
  items : list Json
}.

(** Modelled from the spec: the queue is created empty. *)
Definition create (maxQueueSize : nat) : t := mk maxQueueSize [].

(** Modelled from the spec: [size()] is the current element count. *)
Definition size (q : t) : nat := List.length (items q).

(** Modelled from the spec: [pop()] removes and returns the head, or
    returns the empty marker if the queue is empty.  The empty marker is
    the null [Json::Value], which is what the sender tests with
    [msg.isNull()]. *)
Definition pop (q : t) : Json * t :=
  match items q with
  | [] => (JNull, q)
  | head :: rest => (head, mk (maxSize q) rest)
  end.

(** Modelled from the spec: [add(msg)] inserts at the tail; if
    [size() == maxSize] before the insertion it evicts the head first.
    It never fails. *)
Definition add (msg : Json) (q : t) : t :=
  let q' := if (size q =? maxSize q)%nat then snd (pop q) else q in
  mk (maxSize q') (items q' ++ [msg]).

(** A client of the queue: a sequence of [add] and [pop] calls. *)
Inductive op : Type :=
| Add (msg : Json)
| Pop.

Definition apply (o : op) (q : t) : t :=
  match o with
  | Add msg => add msg q
  | Pop => snd (pop q)
  end.

Definition exec (ops : list op) (q : t) : t :=
  fold_left (fun acc o => apply o acc) ops q.

Definition add_all (msgs : list Json) (q : t) : t :=
  fold_left (fun acc m => add m acc) msgs q.

(** [n] successive calls of [pop], with the values they return. *)
Fixpoint pops (n : nat) (q : t) : list Json * t :=
  match n with
  | O => ([], q)
  | S n' =>
      let (v, q1) := pop q in
      let (vs, q2) := pops n' q1 in
      (v :: vs, q2)
  end.

End QueueManager.

(** The last [n] elements of a list. *)
Definition lastn (A : Type) (n : nat) (l : list A) : list A :=
  skipn (List.length l - n) l.

(* ------------------------------------------------------------------ *)
(** ** The transport, at its interface *)

(** Modelled from the spec: [ix::CobraEventType] is declared in
    [ixcobra/IXCobraConnection.h], outside the verified sources.  Its
    values are the event kinds of section 6 of the specification, under
    the names the event callback tests for. *)
Inductive CobraEventType : Type :=
| Open
| Closed
| Authenticated
| Subscribed
| UnSubscribed
| Error
| Published
| Pong
| HandshakeError
| AuthenticationError
| SubscriptionError.

(** Modelled from the spec: [ix::CobraEvent], declared in the same
    header: the type tag, the error message, the headers and the
    subscription identifier of section 6, and the message identifier the
    callback prints for a Published event. *)
Record CobraEvent : Type := mkEvent {
  type : CobraEventType;
  errMsg : string;
  headers : list (string * string);
  subscriptionId : string;
  msgId : Z
}.

(** A call [conn.subscribe(channel, filter, position, callback)].  The
    callback is always the lambda [onMessage] below, so only the three
    strings are recorded. *)
Record Subscription : Type := mkSubscription {
  sub_channel : string;
  sub_filter : string;
  sub_position : string
}.

(* ------------------------------------------------------------------ *)
(** ** Log output *)

Inductive Level : Type := info | error.

Inductive Arg : Type :=
| AStr (s : string)
| ANum (z : Z)
| AJson (v : Json).

(** One [spdlog::info(fmt, args...)] or [spdlog::error(fmt, args...)]
    call; the format string is kept apart from its arguments. *)
Record LogLine : Type := mkLog {
  level : Level;
  format : string;
  args : list Arg
}.

(* ------------------------------------------------------------------ *)
(** ** Threads *)

(** [t1], the progress timer: inside its loop, or past it. *)
Inductive TimerThread : Type :=
| TimerLoop
| TimerDone.

(** [t2], the heartbeat: before the test of [enableHeartbeat], inside the
    loop with its local [state] string, or returned. *)
Inductive HeartbeatThread : Type :=
| HeartbeatStart
| HeartbeatLoop (state : string)
| HeartbeatDone.

(** [t3], the sender: about to [pop()], holding a message for the
    callback, or past the loop. *)
Inductive SenderThread : Type :=
| SenderPop
| SenderSend (msg : Json)
| SenderDone.

Inductive Worker : Type :=
| Timer
| Heartbeat
| Sender.

Section Bot.

(** Whatever the user's sink callback keeps between calls (a socket, a
    counter, the outside world). *)
Variable World : Type.

(** [ix::CobraConfig] is opaque to the bot. *)
Variable CobraConfig : Type.

(** Modelled from the spec: [ix::CobraConnection] is the transport, an
    external collaborator known by its interface (section 6):
    [configure], [connect], [disconnect], [subscribe].  The record keeps
    what [run] tells it: the configuration, whether it is connected, and
    the subscriptions requested. *)
Record CobraConnection : Type := mkConn {
  configuration : option CobraConfig;
  connected : bool;
  subscriptions : list Subscription
}.

(** Modelled from the spec: [conn.configure(config)]. *)
Definition configure (config : CobraConfig) (c : CobraConnection) :=
  mkConn (Some config) (connected c) (subscriptions c).

(** Modelled from the spec: [conn.connect()]. *)
Definition connect (c : CobraConnection) :=
  mkConn (configuration c) true (subscriptions c).

(** Modelled from the spec: [conn.disconnect()]. *)
Definition disconnect (c : CobraConnection) :=
  mkConn (configuration c) false (subscriptions c).

(** Modelled from the spec: [conn.subscribe(channel, filter, position,
    callback)] records the request; the callback runs when the schedule
    has an [Inbound] action. *)
Definition subscribe (channel filter position : string)
           (c : CobraConnection) :=
  mkConn (configuration c) (connected c)
         (subscriptions c ++ [mkSubscription channel filter position]).

(** [OnBotMessageCallback]: a [std::function] taking the message, the
    verbose flag and a reference to [throttled], returning [bool].  It
    may be empty.  A non-empty one yields its result, the value it
    leaves in [throttled], and its own next state. *)
Definition OnBotMessageCallback : Type :=
  option (Json -> bool -> bool -> World -> bool * bool * World).

Record CobraBot : Type := mkBot {
  _onBotMessageCallback : OnBotMessageCallback
}.

Definition newCobraBot : CobraBot := mkBot None.

Definition setOnBotMessageCallback (callback : OnBotMessageCallback)
           (bot : CobraBot) : CobraBot :=
  mkBot callback.

(** The parameters of [run] besides [config]. *)
Record RunArgs : Type := mkArgs {
  channel : string;
  filter : string;
  position : string;
  verbose : bool;
  maxQueueSize : nat;
  enableHeartbeat : bool;
  runtime : Z
}.

(** Everything the threads of one [run] share.  [sinkCalls] is a
    history variable, not program state: each invocation of the sink
    callback with the value it returned, oldest first. *)
Record State : Type := mkState {
  sentCount : Z;
  receivedCount : Z;
  stop : bool;
  throttled : bool;
  fatalCobraError : bool;
  queueManager : QueueManager.t;
  conn : CobraConnection;
  t1 : TimerThread;
  t2 : HeartbeatThread;
  t3 : SenderThread;
  sink : World;
  log : list LogLine;
  sinkCalls : list (Json * bool)
}.

Definition set_sentCount v (s : State) :=
  mkState v (receivedCount s) (stop s) (throttled s) (fatalCobraError s)
          (queueManager s) (conn s) (t1 s) (t2 s) (t3 s) (sink s) (log s)
          (sinkCalls s).
Definition set_receivedCount v (s : State) :=
  mkState (sentCount s) v (stop s) (throttled s) (fatalCobraError s)
          (queueManager s) (conn s) (t1 s) (t2 s) (t3 s) (sink s) (log s)
          (sinkCalls s).
Definition set_stop v (s : State) :=
  mkState (sentCount s) (receivedCount s) v (throttled s)
          (fatalCobraError s) (queueManager s) (conn s) (t1 s) (t2 s)
          (t3 s) (sink s) (log s) (sinkCalls s).
Definition set_throttled v (s : State) :=
  mkState (sentCount s) (receivedCount s) (stop s) v (fatalCobraError s)
          (queueManager s) (conn s) (t1 s) (t2 s) (t3 s) (sink s) (log s)
          (sinkCalls s).
Definition set_fatalCobraError v (s : State) :=
  mkState (sentCount s) (receivedCount s) (stop s) (throttled s) v
          (queueManager s) (conn s) (t1 s) (t2 s) (t3 s) (sink s) (log s)
          (sinkCalls s).
Definition set_queueManager v (s : State) :=
  mkState (sentCount s) (receivedCount s) (stop s) (throttled s)
          (fatalCobraError s) v (conn s) (t1 s) (t2 s) (t3 s) (sink s)
          (log s) (sinkCalls s).
Definition set_conn v (s : State) :=
  mkState (sentCount s) (receivedCount s) (stop s) (throttled s)
          (fatalCobraError s) (queueManager s) v (t1 s) (t2 s) (t3 s)
          (sink s) (log s) (sinkCalls s).
Definition set_t1 v (s : State) :=
  mkState (sentCount s) (receivedCount s) (stop s) (throttled s)
          (fatalCobraError s) (queueManager s) (conn s) v (t2 s) (t3 s)
          (sink s) (log s) (sinkCalls s).
Definition set_t2 v (s : State) :=
  mkState (sentCount s) (receivedCount s) (stop s) (throttled s)
          (fatalCobraError s) (queueManager s) (conn s) (t1 s) v (t3 s)
          (sink s) (log s) (sinkCalls s).
Definition set_t3 v (s : State) :=
  mkState (sentCount s) (receivedCount s) (stop s) (throttled s)
          (fatalCobraError s) (queueManager s) (conn s) (t1 s) (t2 s) v
          (sink s) (log s) (sinkCalls s).
Definition set_sink v (s : State) :=
  mkState (sentCount s) (receivedCount s) (stop s) (throttled s)
          (fatalCobraError s) (queueManager s) (conn s) (t1 s) (t2 s)
          (t3 s) v (log s) (sinkCalls s).
Definition set_log v (s : State) :=
  mkState (sentCount s) (receivedCount s) (stop s) (throttled s)
          (fatalCobraError s) (queueManager s) (conn s) (t1 s) (t2 s)
          (t3 s) (sink s) v (sinkCalls s).
Definition set_sinkCalls v (s : State) :=
  mkState (sentCount s) (receivedCount s) (stop s) (throttled s)
          (fatalCobraError s) (queueManager s) (conn s) (t1 s) (t2 s)
          (t3 s) (sink s) (log s) v.

(** [spdlog::info] and [spdlog::error] append one line. *)
Definition spdlog (lvl : Level) (fmt : string) (a : list Arg) (s : State)
  : State :=
  set_log (log s ++ [mkLog lvl fmt a]) s.

(** A step either leaves a next state or ends the whole process
    ([exit(code)]), in the state it had reached. *)
Inductive Progress : Type :=
| Go (s : State)
| Exit (code : Z) (s : State).

Definition and_then (p : Progress) (k : State -> Progress) : Progress :=
  match p with
  | Go s => k s
  | Exit code s => Exit code s
  end.

(* ---------------------------------------------------------------- *)
(** *** The worker loops, one iteration per step *)

(** The lambda [timer]. *)
Definition timer (s : State) : State :=
  match t1 s with
  | TimerDone => s
  | TimerLoop =>
      if stop s then
        set_t1 TimerDone (spdlog info "timer thread done" [] s)
      else
        spdlog info "messages received {} sent {}"
               [ANum (receivedCount s); ANum (sentCount s)] s
  end.

(** The string the heartbeat builds in its [stringstream]. *)
Definition snapshot (received sent : Z) : string :=
  ("messages received " ++ decimal received
     ++ "messages sent " ++ decimal sent)%string.

(** The lambda [heartbeat]. *)
Definition heartbeat (enableHeartbeat : bool) (s : State) : Progress :=
  match t2 s with
  | HeartbeatDone => Go s
  | HeartbeatStart =>
      if negb enableHeartbeat then Go (set_t2 HeartbeatDone s)
      else Go (set_t2 (HeartbeatLoop "na") s)
  | HeartbeatLoop state =>
      if stop s then
        Go (set_t2 HeartbeatDone (spdlog info "heartbeat thread done" [] s))
      else
        let currentState := snapshot (receivedCount s) (sentCount s) in
        if String.eqb currentState state then
          Exit 1 (spdlog error
                    "no messages received or sent for 1 minute, exiting"
                    [] s)
        else Go (set_t2 (HeartbeatLoop currentState) s)
  end.

Definition sender_done (s : State) : State :=
  set_t3 SenderDone (spdlog info "sender thread done" [] s).

(** The call of the sink and the branch on its result. *)
Definition dispatch (bot : CobraBot) (verbose : bool) (msg : Json)
           (s : State) : State :=
  match _onBotMessageCallback bot with
  | Some callback =>
      let '(ok, thr, w) := callback msg verbose (throttled s) (sink s) in
      let s1 := set_sinkCalls (sinkCalls s ++ [(msg, ok)])
                              (set_sink w (set_throttled thr s)) in
      if ok then
        let s2 := if verbose
                  then spdlog info "cobra bot: sending succesfull" [] s1
                  else s1 in
        set_sentCount (incr64 (sentCount s2)) s2
      else spdlog error "cobra bot: error sending" [] s1
  | None => spdlog error "cobra bot: error sending" [] s
  end.

(** The lambda [sender], in two steps per iteration: from [pop()] to the
    test of [isNull()], and from the call of the sink to the end of the
    body. *)
Definition sender (bot : CobraBot) (verbose : bool) (s : State) : State :=
  match t3 s with
  | SenderDone => s
  | SenderPop =>
      let (msg, q) := QueueManager.pop (queueManager s) in
      let s1 := set_queueManager q s in
      if stop s1 then sender_done s1
      else if isNull msg then s1
      else set_t3 (SenderSend msg) s1
  | SenderSend msg =>
      let s1 := dispatch bot verbose msg s in
      if stop s1 then sender_done s1 else set_t3 SenderPop s1
  end.

(* ---------------------------------------------------------------- *)
(** *** The transport's callbacks *)

(** The lambda passed to [conn.subscribe]. *)
Definition onMessage (verbose : bool) (msg : Json) (position : string)
           (s : State) : State :=
  let s1 := if verbose
            then spdlog info "Subscriber received message {} -> {}"
                        [AStr position; AJson msg] s
            else s in
  if throttled s1 then s1
  else
    let s2 := set_receivedCount (incr64 (receivedCount s1)) s1 in
    set_queueManager (QueueManager.add msg (queueManager s2)) s2.

(** The lambda passed to [conn.setEventCallback]. *)
Definition eventCallback (a : RunArgs) (event : CobraEvent) (s : State)
  : State :=
  match type event with
  | Open =>
      fold_left
        (fun acc it => spdlog info "{}: {}" [AStr (fst it); AStr (snd it)] acc)
        (headers event)
        (spdlog info "Subscriber connected" [] s)
  | Closed =>
      spdlog info "Subscriber closed: {}" [AStr (errMsg event)] s
  | Authenticated =>
      let s1 := spdlog info "Subscriber authenticated" [] s in
      set_conn (subscribe (channel a) (filter a) (position a) (conn s1)) s1
  | Subscribed =>
      spdlog info "Subscriber: subscribed to channel {}"
             [AStr (subscriptionId event)] s
  | UnSubscribed =>
      spdlog info "Subscriber: unsubscribed from channel {}"
             [AStr (subscriptionId event)] s
  | Error =>
      spdlog error "Subscriber: error {}" [AStr (errMsg event)] s
  | Published =>
      spdlog error "Published message hacked: {}" [ANum (msgId event)] s
  | Pong =>
      spdlog info "Received websocket pong: {}" [AStr (errMsg event)] s
  | HandshakeError =>
      set_fatalCobraError true
        (spdlog error "Subscriber: Handshake error: {}"
                [AStr (errMsg event)] s)
  | AuthenticationError =>
      set_fatalCobraError true
        (spdlog error "Subscriber: Authentication error: {}"
                [AStr (errMsg event)] s)
  | SubscriptionError =>
      set_fatalCobraError true
        (spdlog error "Subscriber: Subscription error: {}"
                [AStr (errMsg event)] s)
  end.

(* ---------------------------------------------------------------- *)
(** *** Interleaving *)

(** What can happen while the supervisor sleeps: the transport calls the
    event callback, the transport calls the subscription callback, or a
    worker thread takes a step. *)
Inductive Action : Type :=
| Deliver (event : CobraEvent)
| Inbound (msg : Json) (position : string)
| Work (w : Worker).

Definition work (bot : CobraBot) (a : RunArgs) (w : Worker) (s : State)
  : Progress :=
  match w with
  | Timer => Go (timer s)
  | Heartbeat => heartbeat (enableHeartbeat a) s
  | Sender => Go (sender bot (verbose a) s)
  end.

Definition step (bot : CobraBot) (a : RunArgs) (act : Action) (s : State)
  : Progress :=
  match act with
  | Deliver event => Go (eventCallback a event s)
  | Inbound msg position => Go (onMessage (verbose a) msg position s)
  | Work w => work bot a w s
  end.

(** [std::this_thread::sleep_for] in the supervisor: the other threads
    run the actions of one segment of the schedule. *)
Fixpoint sleep_for (bot : CobraBot) (a : RunArgs) (segment : list Action)
         (s : State) : Progress :=
  match segment with
  | [] => Go s
  | act :: rest => and_then (step bot a act s) (sleep_for bot a rest)
  end.

(* ---------------------------------------------------------------- *)
(** *** Supervision *)

(** A schedule: for each tick of the supervision loop the actions of the
    other threads during that tick's sleep, and the worker steps taken
    between [stop = true] and the joins.  It describes a finite part of
    an execution; the supervision loop may outlast it. *)
Record Schedule : Type := mkSchedule {
  ticks : list (list Action);
  joining : list Worker
}.

(** Where the supervision loop stands at the end of the schedule:
    left after [nticks] sleeps, cut short by [exit], or still looping. *)
Inductive Supervision : Type :=
| Ended (s : State) (nticks : nat)
| Killed (code : Z) (s : State)
| Ongoing (s : State) (nticks : nat).

(** [while (true) { sleep_for(1s); if (fatalCobraError) break; }] *)
Fixpoint supervise_forever (bot : CobraBot) (a : RunArgs)
         (segments : list (list Action)) (n : nat) (s : State)
  : Supervision :=
  match segments with
  | [] => Ongoing s n
  | segment :: rest =>
      match sleep_for bot a segment s with
      | Exit code s' => Killed code s'
      | Go s' =>
          if fatalCobraError s' then Ended s' (S n)
          else supervise_forever bot a rest (S n) s'
      end
  end.

(** [for (int i = 0; i < runtime; ++i)
       { sleep_for(1s); if (fatalCobraError) break; }],
    entered at the test [i < runtime]. *)
Fixpoint supervise_for (bot : CobraBot) (a : RunArgs) (i : Z)
         (segments : list (list Action)) (n : nat) (s : State)
  : Supervision :=
  if i <? runtime a then
    match segments with
    | [] => Ongoing s n
    | segment :: rest =>
        match sleep_for bot a segment s with
        | Exit code s' => Killed code s'
        | Go s' =>
            if fatalCobraError s' then Ended s' (S n)
            else supervise_for bot a (i + 1) rest (S n) s'
        end
    end
  else Ended s n.

Definition supervise (bot : CobraBot) (a : RunArgs)
           (segments : list (list Action)) (s : State) : Supervision :=
  if runtime a =? -1 then supervise_forever bot a segments 0 s
  else supervise_for bot a 0 segments 0 s.

Definition finished (w : Worker) (s : State) : bool :=
  match w with
  | Timer => match t1 s with TimerDone => true | _ => false end
  | Heartbeat => match t2 s with HeartbeatDone => true | _ => false end
  | Sender => match t3 s with SenderDone => true | _ => false end
  end.

(** [t.join()]: the caller waits while thread [t] runs on.  With [stop]
    set, every worker has returned after two of its steps, and a step
    of a returned thread does nothing ([join_finished] below), so two
    steps stand for running on until the thread has returned. *)
Definition join (bot : CobraBot) (a : RunArgs) (w : Worker) (s : State)
  : Progress :=
  and_then (work bot a w s) (work bot a w).

(** The cleanup at the end of [run]. *)
Definition shutdown (bot : CobraBot) (a : RunArgs) (steps : list Worker)
           (s : State) : Progress :=
  let s1 := set_conn (disconnect (conn s)) s in
  let s2 := set_stop true s1 in
  and_then (sleep_for bot a (map Work steps) s2) (fun s3 =>
  and_then (join bot a Timer s3) (fun s4 =>
  and_then (join bot a Heartbeat s4) (fun s5 =>
  join bot a Sender s5))).

(** The state at the first tick: the connection configured and
    connected, the atomics zeroed, the queue empty, the three threads
    started, the event callback registered. *)
Definition start (config : CobraConfig) (a : RunArgs) (world : World)
  : State :=
  mkState 0 0 false false false
          (QueueManager.create (maxQueueSize a))
          (connect (configure config (mkConn None false [])))
          TimerLoop HeartbeatStart SenderPop
          world [] [].

(** [return fatalCobraError ? -1 : (int64_t) sentCount;] *)
Definition result (s : State) : Z :=
  if fatalCobraError s then -1 else to_int64 (sentCount s).

(** An execution of [run] along a schedule, with the final state and
    the number of supervision ticks. *)
Inductive Execution : Type :=
| Completed (s : State) (nticks : nat)
| Terminated (code : Z) (s : State)
| Unfinished (s : State) (nticks : nat).

Definition execute (bot : CobraBot) (config : CobraConfig) (a : RunArgs)
           (world : World) (sched : Schedule) : Execution :=
  match supervise bot a (ticks sched) (start config a world) with
  | Ended s n =>
      match shutdown bot a (joining sched) s with
      | Go s' => Completed s' n
      | Exit code s' => Terminated code s'
      end
  | Killed code s => Terminated code s
  | Ongoing s n => Unfinished s n
  end.

(** What the caller of [run] sees: a returned value, the process gone
    through [exit], or [run] still running when the schedule ends. *)
Inductive Outcome : Type :=
| Returned (v : Z)
| Exited (code : Z)
| Running.

Definition run (bot : CobraBot) (config : CobraConfig) (a : RunArgs)
           (world : World) (sched : Schedule) : Outcome :=
  match execute bot config a world sched with
  | Completed s _ => Returned (result s)
  | Terminated code _ => Exited code
  | Unfinished _ _ => Running
  end.

(* ---------------------------------------------------------------- *)
(** *** Vocabulary for the statements *)

(** The shared variables the lambdas of [run] capture by reference. *)
Definition shared (s : State) :=
  (sentCount s, receivedCount s, stop s, throttled s, fatalCobraError s,
   queueManager s).

(** The event kinds on which the callback sets [fatalCobraError]. *)
Definition fatal_kind (t : CobraEventType) : bool :=
  match t with
  | HandshakeError | AuthenticationError | SubscriptionError => true
  | _ => false
  end.

(** The state once the first [k] ticks of a schedule have gone by. *)
Definition after_ticks (bot : CobraBot) (a : RunArgs)
           (segments : list (list Action)) (k : nat) (s : State)
  : Progress :=
  sleep_for bot a (List.concat (firstn k segments)) s.

(** The process is alive and no fatal error has been flagged. *)
Definition quiet (p : Progress) : Prop :=
  exists s, p = Go s /\ fatalCobraError s = false.

(** The process is alive and a fatal error has been flagged. *)
Definition alarmed (p : Progress) : Prop :=
  exists s, p = Go s /\ fatalCobraError s = true.

(** The messages the transport hands to the subscription callback. *)
Fixpoint delivered (segment : list Action) : list Json :=
  match segment with
  | [] => []
  | Inbound msg _ :: rest => msg :: delivered rest
  | _ :: rest => delivered rest
  end.

(** The number of sink calls that returned [true]. *)
Definition accepted (calls : list (Json * bool)) : nat :=
  List.length (List.filter (fun c => snd c) calls).

(** [sentCount] counts the sink calls that returned [true]. *)
Definition counted (s : State) : Prop :=
  sentCount s = Z.of_nat (accepted (sinkCalls s)) mod UINT64_MOD.

(** The heartbeat is inside its loop only if it is enabled. *)
Definition heartbeat_armed (a : RunArgs) (s : State) : Prop :=
  match t2 s with
  | HeartbeatLoop _ => enableHeartbeat a = true
  | _ => True
  end.

(** The last state of an execution. *)
Definition final (e : Execution) : State :=
  match e with
  | Completed s _ => s
  | Terminated _ s => s
  | Unfinished s _ => s
  end.

End Bot.

(* ------------------------------------------------------------------ *)
(** ** Concrete material *)

(** A sink that accepts everything and keeps no state, an event with
    nothing but its kind, and the arguments of a short bounded run: the
    material of the concrete instances below. *)
Definition sink_accepts : OnBotMessageCallback unit :=
  Some (fun _ _ thr w => (true, thr, w)).

Definition sink_rejects : OnBotMessageCallback unit :=
  Some (fun _ _ thr w => (false, thr, w)).

Definition plain (t : CobraEventType) : CobraEvent := mkEvent t "" [] "" 0.

Definition bounded_args (seconds : Z) (heartbeat : bool) : RunArgs :=
  mkArgs "channel" "" "$" false 10 heartbeat seconds.

Definition handshake : list Action :=
  [Deliver (plain Open); Deliver (plain Authenticated);
   Deliver (plain Subscribed)].

(** [n] ticks during which no other thread takes a step. *)
Definition quiet_ticks (n : nat) : list (list Action) := repeat [] n.

(** Two minutes of a run with the heartbeat enabled: the heartbeat takes
    its first look at the counters at the start, the subscription is set
    up and two messages arrive and go through the sender during the first
    second, and then nothing happens but the heartbeat's looks at the
    counters after one and after two minutes. *)
Definition two_silent_minutes : Schedule :=
  mkSchedule
    ([[Work Heartbeat; Work Heartbeat] ++ handshake
        ++ [Inbound (JInt 1) "p1"; Inbound (JInt 2) "p2";
            Work Sender; Work Sender; Work Sender; Work Sender; Work Sender]]
       ++ quiet_ticks 58 ++ [[Work Heartbeat]]
       ++ quiet_ticks 59 ++ [[Work Heartbeat]]
       ++ quiet_ticks 60)
    [].

(** One minute of a run with the heartbeat enabled and no traffic, at the
    end of which a handshake error arrives just before the heartbeat's
    second look at the counters. *)
Definition late_handshake_error : Schedule :=
  mkSchedule
    ([[Work Heartbeat; Work Heartbeat; Work Timer]]
       ++ quiet_ticks 58
       ++ [[Deliver (plain HandshakeError); Work Heartbeat]])
    [].

(* ------------------------------------------------------------------ *)
(** ** Vocabulary for the heartbeat *)

(** Whether the subscription callback takes the message of an action: it
    does unless [throttled] is set, and then [receivedCount] is
    incremented; a message that arrives while [throttled] is set is
    dropped and does not count as received. *)
Definition admits (World CobraConfig : Type) (act : Action)
           (s : State World CobraConfig) : nat :=
  match act with
  | Inbound _ _ => if throttled s then 0 else 1
  | _ => 0
  end.

(** The number of messages received in the course of a segment that is
    run from [s]. *)
Fixpoint admitted (World CobraConfig : Type) (bot : CobraBot World)
         (a : RunArgs) (segment : list Action)
         (s : State World CobraConfig) : nat :=
  match segment with
  | [] => O
  | act :: rest =>
      (admits act s
       + match step bot a act s with
         | Go s' => admitted bot a rest s'
         | Exit _ _ => O
         end)%nat
  end.

(** In the course of [actions], run from [s], the heartbeat comes to a
    look at the counters (an iteration of its loop, [stop] being clear)
    at which the snapshot it builds is the one it kept from its look
    before. *)
Definition stalled_look (World CobraConfig : Type) (bot : CobraBot World)
           (a : RunArgs) (actions : list Action)
           (s : State World CobraConfig) : Prop :=
  exists pre post x state,
    actions = pre ++ Work Heartbeat :: post /\
    sleep_for bot a pre s = Go x /\
    t2 x = HeartbeatLoop state /\ stop x = false /\
    snapshot (receivedCount x) (sentCount x) = state.

(* ------------------------------------------------------------------ *)
(** ** Further vocabulary *)

(** The number of Authenticated events a segment delivers. *)
Fixpoint authentications (segment : list Action) : nat :=
  match segment with
  | [] => O
  | Deliver event :: rest =>
      match type event with
      | Authenticated => S (authentications rest)
      | _ => authentications rest
      end
  | _ :: rest => authentications rest
  end.

(** The state a segment ends in, whether the process goes on or exits. *)
Definition reached (World CobraConfig : Type)
           (p : Progress World CobraConfig) : State World CobraConfig :=
  match p with
  | Go s => s
  | Exit _ s => s
  end.

(** A sink that leaves [throttled] clear whenever it finds it clear. *)
Definition never_throttles (World : Type) (bot : CobraBot World) : Prop :=
  match _onBotMessageCallback bot with
  | Some callback =>
      forall msg verbose w, snd (fst (callback msg verbose false w)) = false
  | None => True
  end.

(** No sink call so far was made on a null message, and the sender holds
    none for the next call. *)
Definition sink_sees_no_null (World CobraConfig : Type)
           (s : State World CobraConfig) : Prop :=
  Forall (fun call => isNull (fst call) = false) (sinkCalls s) /\
  match t3 s with
  | SenderSend msg => isNull msg = false
  | _ => True
  end.

(** The sink calls made so far plus the one the sender is about to
    make. *)
Definition calls_due (World CobraConfig : Type)
           (s : State World CobraConfig) : nat :=
  List.length (sinkCalls s) +
  match t3 s with
  | SenderSend _ => 1
  | _ => 0
  end.

(** The arguments of [run] with another [verbose]. *)
Definition with_verbose (v : bool) (a : RunArgs) : RunArgs :=
  mkArgs (channel a) (filter a) (position a) v (maxQueueSize a)
         (enableHeartbeat a) (runtime a).

(** A sink whose effect does not depend on the [verbose] it is handed. *)
Definition ignores_verbose (World : Type) (bot : CobraBot World) : Prop :=
  match _onBotMessageCallback bot with
  | Some callback =>
      forall msg v thr w, callback msg v thr w = callback msg false thr w
  | None => True
  end.

(** A state, a step's outcome, the supervision loop's and an execution's,
    with the log taken away. *)
Definition unlogged (World CobraConfig : Type)
           (s : State World CobraConfig) : State World CobraConfig :=
  set_log [] s.

Definition unlogged_progress (World CobraConfig : Type)
           (p : Progress World CobraConfig) : Progress World CobraConfig :=
  match p with
  | Go s => Go (unlogged s)
  | Exit code s => Exit code (unlogged s)
  end.

Definition unlogged_supervision (World CobraConfig : Type)
           (v : Supervision World CobraConfig)
  : Supervision World CobraConfig :=
  match v with
  | Ended s n => Ended (unlogged s) n
  | Killed code s => Killed code (unlogged s)
  | Ongoing s n => Ongoing (unlogged s) n
  end.

Definition unlogged_execution (World CobraConfig : Type)
           (e : Execution World CobraConfig) : Execution World CobraConfig :=
  match e with
  | Completed s n => Completed (unlogged s) n
  | Terminated code s => Terminated code (unlogged s)
  | Unfinished s n => Unfinished (unlogged s) n
  end.

(** How often a format string was logged. *)
Fixpoint logged (fmt : string) (l : list LogLine) : nat :=
  match l with
  | [] => O
  | line :: rest =>
      ((if String.eqb (format line) fmt then 1 else 0) + logged fmt rest)%nat
  end.

(** The log tells which threads have returned: a thread's last line is
    there once if the thread has returned and not at all otherwise, the
    heartbeat's only if the heartbeat is enabled; and before [stop] is
    set no thread has returned but a disabled heartbeat. *)
Definition log_tells_returns (World CobraConfig : Type) (a : RunArgs)
           (s : State World CobraConfig) : Prop :=
  logged "timer thread done" (log s)
  = (if finished Timer s then 1 else 0)%nat /\
  logged "sender thread done" (log s)
  = (if finished Sender s then 1 else 0)%nat /\
  logged "heartbeat thread done" (log s)
  = (if finished Heartbeat s && enableHeartbeat a then 1 else 0)%nat /\
  heartbeat_armed a s /\
  (stop s = false ->
   finished Timer s = false /\ finished Sender s = false /\
   (finished Heartbeat s = true -> enableHeartbeat a = false)).

(* ================================================================== *)
(** * Properties *)

(* ------------------------------------------------------------------ *)
(** ** The bounded queue *)

Lemma tl_skipn (A : Type) (n : nat) (l : list A) :
  tl (skipn n l) = skipn (S n) l.
Proof.
  revert l; induction n as [|n IH]; intros [|x l]; simpl; auto.
Qed.

Lemma lastn_snoc (A : Type) (C : nat) (l : list A) (x : A) :
  (1 <= C)%nat ->
  lastn C (l ++ [x]) =
  (if (List.length (lastn C l) =? C)%nat then tl (lastn C l) else lastn C l)
    ++ [x].
Proof.
  intros HC. unfold lastn.
  rewrite length_skipn, length_app. simpl List.length.
  destruct (Nat.eqb_spec (List.length l - (List.length l - C)) C) as [E|E].
  - rewrite tl_skipn, skipn_app.
    replace (List.length l + 1 - C)%nat with (S (List.length l - C)) by lia.
    replace (S (List.length l - C) - List.length l)%nat with 0%nat by lia.
    reflexivity.
  - rewrite skipn_app.
    replace (List.length l + 1 - C)%nat with 0%nat by lia.
    replace (List.length l - C)%nat with 0%nat by lia.
    reflexivity.
Qed.

Lemma queue_add_maxSize (msg : Json) (q : QueueManager.t) :
  QueueManager.maxSize (QueueManager.add msg q) = QueueManager.maxSize q.
Proof.
  destruct q as [C l]. unfold QueueManager.add, QueueManager.pop. simpl.
  destruct (QueueManager.size _ =? C)%nat; simpl; auto.
  destruct l; reflexivity.
Qed.

Lemma queue_pop_maxSize (q : QueueManager.t) :
  QueueManager.maxSize (snd (QueueManager.pop q)) = QueueManager.maxSize q.
Proof.
  destruct q as [C l]. unfold QueueManager.pop. simpl.
  destruct l; reflexivity.
Qed.

Lemma queue_add_items (msg : Json) (q : QueueManager.t) :
  QueueManager.items (QueueManager.add msg q) =
  (if (QueueManager.size q =? QueueManager.maxSize q)%nat
   then tl (QueueManager.items q) else QueueManager.items q) ++ [msg].
Proof.
  destruct q as [C l]. unfold QueueManager.add, QueueManager.pop. simpl.
  destruct (QueueManager.size _ =? C)%nat; simpl; auto.
  destruct l; reflexivity.
Qed.

Lemma queue_add_bounded (msg : Json) (q : QueueManager.t) :
  (1 <= QueueManager.maxSize q)%nat ->
  (QueueManager.size q <= QueueManager.maxSize q)%nat ->
  (QueueManager.size (QueueManager.add msg q) <= QueueManager.maxSize q)%nat.
Proof.
  intros H1 Hb. unfold QueueManager.size at 1. rewrite queue_add_items.
  rewrite length_app. unfold QueueManager.size in *. simpl.
  destruct (Nat.eqb_spec (List.length (QueueManager.items q))
                         (QueueManager.maxSize q)) as [E|E].
  - destruct (QueueManager.items q); simpl in *; lia.
  - lia.
Qed.

Lemma queue_pop_bounded (q : QueueManager.t) :
  (QueueManager.size q <= QueueManager.maxSize q)%nat ->
  (QueueManager.size (snd (QueueManager.pop q)) <= QueueManager.maxSize q)%nat.
Proof.
  destruct q as [C l]. unfold QueueManager.size, QueueManager.pop. simpl.
  destruct l; simpl; lia.
Qed.

Lemma queue_exec_bounded (ops : list QueueManager.op) (q : QueueManager.t) :
  (1 <= QueueManager.maxSize q)%nat ->
  (QueueManager.size q <= QueueManager.maxSize q)%nat ->
  QueueManager.maxSize (QueueManager.exec ops q) = QueueManager.maxSize q /\
  (QueueManager.size (QueueManager.exec ops q) <= QueueManager.maxSize q)%nat.
Proof.
  revert q. induction ops as [|o ops IH]; intros q H1 Hb; simpl; auto.
  unfold QueueManager.exec in *. simpl.
  destruct o as [msg|]; simpl.
  - destruct (IH (QueueManager.add msg q)) as [Hm Hs].
    + now rewrite queue_add_maxSize.
    + rewrite queue_add_maxSize. now apply queue_add_bounded.
    + rewrite queue_add_maxSize in *. auto.
  - destruct (IH (snd (QueueManager.pop q))) as [Hm Hs].
    + now rewrite queue_pop_maxSize.
    + rewrite queue_pop_maxSize. now apply queue_pop_bounded.
    + rewrite queue_pop_maxSize in *. auto.
Qed.

Lemma queue_add_all_snoc (msgs : list Json) (msg : Json) (q : QueueManager.t) :
  QueueManager.add_all (msgs ++ [msg]) q =
  QueueManager.add msg (QueueManager.add_all msgs q).
Proof. unfold QueueManager.add_all. now rewrite fold_left_app. Qed.

Lemma queue_add_all_create (C : nat) (msgs : list Json) :
  (1 <= C)%nat ->
  QueueManager.add_all msgs (QueueManager.create C) =
  QueueManager.mk C (lastn C msgs).
Proof.
  intros HC. induction msgs as [|msg msgs IH] using rev_ind.
  - reflexivity.
  - rewrite queue_add_all_snoc, IH.
    transitivity (QueueManager.mk C
      (QueueManager.items
         (QueueManager.add msg (QueueManager.mk C (lastn C msgs))))).
    + pose proof (queue_add_maxSize msg (QueueManager.mk C (lastn C msgs))) as Hm.
      destruct (QueueManager.add msg (QueueManager.mk C (lastn C msgs))).
      simpl in *. now subst.
    + rewrite queue_add_items. unfold QueueManager.size. simpl.
      now rewrite lastn_snoc.
Qed.

Lemma queue_pops_all (q : QueueManager.t) :
  QueueManager.pops (QueueManager.size q) q =
  (QueueManager.items q, QueueManager.mk (QueueManager.maxSize q) []).
Proof.
  destruct q as [C l]. unfold QueueManager.size. simpl.
  induction l as [|x l IH]; simpl.
  - reflexivity.
  - now rewrite IH.
Qed.

(* ------------------------------------------------------------------ *)
(** ** Arithmetic of the counters *)

Lemma incr64_small (z : Z) : 0 <= z < UINT64_MOD - 1 -> incr64 z = z + 1.
Proof. unfold incr64, UINT64_MOD. intros H. apply Z.mod_small. lia. Qed.

Lemma incr64_mod (n : Z) :
  incr64 (n mod UINT64_MOD) = (n + 1) mod UINT64_MOD.
Proof. unfold incr64. now rewrite Z.add_mod_idemp_l by (unfold UINT64_MOD; lia). Qed.

Lemma to_int64_small (z : Z) : 0 <= z < 2 ^ 63 -> to_int64 z = z.
Proof.
  intros H. unfold to_int64. destruct (Z.ltb_spec z (2 ^ 63)); lia.
Qed.

(** [k] increments, from a value in range. *)
Lemma iter_incr64 (k : nat) (z : Z) :
  uint64 z -> Nat.iter k incr64 z = (z + Z.of_nat k) mod UINT64_MOD.
Proof.
  unfold uint64. intros Hz. induction k as [|k IH].
  - simpl. rewrite Z.add_0_r. symmetry. now apply Z.mod_small.
  - rewrite Nat.iter_succ, IH, incr64_mod. f_equal. lia.
Qed.

(* ------------------------------------------------------------------ *)
(** ** The callbacks of the transport *)

Section Callbacks.

Context {World CobraConfig : Type}.

Let St := State World CobraConfig.

Lemma open_headers_frame (hs : list (string * string)) (s : St) :
  let s' := fold_left
              (fun acc it =>
                 spdlog info "{}: {}" [AStr (fst it); AStr (snd it)] acc)
              hs s in
  shared s' = shared s /\ conn s' = conn s /\
  t1 s' = t1 s /\ t2 s' = t2 s /\ t3 s' = t3 s /\
  sink s' = sink s /\ sinkCalls s' = sinkCalls s.
Proof.
  revert s. induction hs as [|h hs IH]; intros s; simpl.
  - repeat split.
  - destruct (IH (spdlog info "{}: {}" [AStr (fst h); AStr (snd h)] s))
      as (H1 & H2 & H3 & H4 & H5 & H6 & H7).
    repeat split; etransitivity; eauto.
Qed.

Lemma eventCallback_fatal (a : RunArgs) (event : CobraEvent) (s : St) :
  fatalCobraError (eventCallback a event s) =
  fatal_kind (type event) || fatalCobraError s.
Proof.
  unfold eventCallback. destruct (type event); simpl; try reflexivity.
  pose proof (open_headers_frame (headers event)
                (spdlog info "Subscriber connected" [] s)) as H.
  destruct H as (H & _). unfold shared in H. simpl in H |- *.
  injection H as _ _ _ _ Hf _. exact Hf.
Qed.

End Callbacks.

(* ------------------------------------------------------------------ *)
(** ** One step of the interleaving *)

Ltac break_match :=
  repeat match goal with
         | H : context [match ?x with _ => _ end] |- _ => destruct x eqn:?
         | |- context [match ?x with _ => _ end] => destruct x eqn:?
         end.

Ltac open_step :=
  unfold step, work, timer, heartbeat, sender, sender_done, dispatch,
    onMessage in *.

Ltac go_inv :=
  repeat match goal with
         | H : Go _ = Go _ |- _ => injection H as H; subst
         | H : Exit _ _ = Exit _ _ |- _ => injection H as ? H; subst
         | H : Go _ = Exit _ _ |- _ => discriminate H
         | H : Exit _ _ = Go _ |- _ => discriminate H
         end.

Section Steps.

Context {World CobraConfig : Type}.
Variable bot : CobraBot World.
Variable a : RunArgs.

Let St := State World CobraConfig.

Lemma eventCallback_frame (event : CobraEvent) (s : St) :
  let s' := eventCallback a event s in
  sentCount s' = sentCount s /\ receivedCount s' = receivedCount s /\
  stop s' = stop s /\ throttled s' = throttled s /\
  queueManager s' = queueManager s /\
  t1 s' = t1 s /\ t2 s' = t2 s /\ t3 s' = t3 s /\
  sink s' = sink s /\ sinkCalls s' = sinkCalls s.
Proof.
  unfold eventCallback. destruct (type event); simpl;
    try (repeat split; reflexivity).
  pose proof (open_headers_frame (headers event)
                (spdlog info "Subscriber connected" [] s)) as H.
  destruct H as (H & H2 & H3 & H4 & H5 & H6 & H7).
  unfold shared in H. simpl in *.
  injection H as E1 E2 E3 E4 _ E6. repeat split; assumption.
Qed.

(** No step writes [stop]. *)
Lemma step_stop (act : Action) (s s' : St) :
  step bot a act s = Go s' -> stop s' = stop s.
Proof.
  destruct act as [event | msg pos | [ | | ]]; simpl; intros H.
  - go_inv. apply eventCallback_frame.
  - open_step. go_inv. break_match; simpl in *; congruence.
  - open_step. go_inv. break_match; simpl in *; congruence.
  - open_step. break_match; go_inv; simpl in *; congruence.
  - open_step. go_inv. break_match; simpl in *; congruence.
Qed.

(** [fatalCobraError] is written by the event callback only, and only
    to [true]. *)
Lemma step_fatal (act : Action) (s s' : St) :
  step bot a act s = Go s' ->
  fatalCobraError s' =
  match act with
  | Deliver event => fatal_kind (type event)
  | _ => false
  end || fatalCobraError s.
Proof.
  destruct act as [event | msg pos | [ | | ]]; simpl; intros H.
  - go_inv. apply eventCallback_fatal.
  - open_step. go_inv. break_match; simpl in *; congruence.
  - open_step. go_inv. break_match; simpl in *; congruence.
  - open_step. break_match; go_inv; simpl in *; congruence.
  - open_step. go_inv. break_match; simpl in *; congruence.
Qed.

Lemma accepted_snoc (calls : list (Json * bool)) (msg : Json) (ok : bool) :
  accepted (calls ++ [(msg, ok)]) =
  (accepted calls + if ok then 1 else 0)%nat.
Proof.
  unfold accepted. rewrite filter_app, length_app. now destruct ok.
Qed.

Lemma dispatch_counted (verbose : bool) (msg : Json) (s : St) :
  counted s -> counted (dispatch bot verbose msg s).
Proof.
  unfold counted, dispatch. intros H.
  destruct (_onBotMessageCallback bot) as [callback|]; [|exact H].
  destruct (callback msg verbose (throttled s) (sink s)) as [[ok thr] w].
  destruct ok, verbose; simpl; rewrite accepted_snoc, H;
    rewrite ?incr64_mod, ?Nat.add_0_r; try reflexivity;
    f_equal; lia.
Qed.

Lemma step_counted (act : Action) (s s' : St) :
  step bot a act s = Go s' -> counted s -> counted s'.
Proof.
  destruct act as [event | msg pos | [ | | ]]; simpl; intros H C.
  - go_inv. unfold counted in *.
    destruct (eventCallback_frame event s) as (E1 & _ & _ & _ & _ & _ & _ & _ & _ & E2).
    now rewrite E1, E2.
  - open_step. go_inv. unfold counted in *. break_match; exact C.
  - open_step. go_inv. unfold counted in *. break_match; exact C.
  - open_step. unfold counted in *. break_match; go_inv; exact C.
  - go_inv. unfold sender, sender_done.
    destruct (t3 s) as [ | m | ]; [ | | exact C].
    + unfold counted in *. break_match; exact C.
    + pose proof (dispatch_counted (verbose a) m C) as C'.
      unfold counted in *. break_match; exact C'.
Qed.

Lemma step_armed (act : Action) (s s' : St) :
  step bot a act s = Go s' -> heartbeat_armed a s -> heartbeat_armed a s'.
Proof.
  destruct act as [event | msg pos | [ | | ]]; simpl; intros H C.
  - go_inv. unfold heartbeat_armed in *.
    destruct (eventCallback_frame event s) as (_ & _ & _ & _ & _ & _ & E & _).
    now rewrite E.
  - open_step. go_inv. unfold heartbeat_armed in *. break_match; simpl in *; congruence.
  - open_step. go_inv. unfold heartbeat_armed in *. break_match; simpl in *; congruence.
  - open_step. unfold heartbeat_armed in *.
    destruct (t2 s) eqn:E2; [ | | go_inv; now rewrite E2].
    + destruct (enableHeartbeat a); simpl in *; go_inv; simpl; auto.
    + break_match; go_inv; simpl in *; try congruence; auto.
  - open_step. go_inv. unfold heartbeat_armed in *.
    break_match; simpl in *; congruence.
Qed.

(** Only the armed heartbeat ends the process, with code 1, while
    [stop] is clear. *)
Lemma step_exit (act : Action) (s s' : St) (code : Z) :
  step bot a act s = Exit code s' ->
  act = Work Heartbeat /\ code = 1 /\ stop s = false /\
  exists state, t2 s = HeartbeatLoop state /\
                snapshot (receivedCount s) (sentCount s) = state.
Proof.
  destruct act as [event | msg pos | [ | | ]]; simpl; intros H;
    try discriminate.
  unfold heartbeat in H.
  destruct (t2 s) as [ | state | ] eqn:E2; try discriminate.
  - destruct (negb (enableHeartbeat a)); discriminate.
  - destruct (stop s) eqn:Es; try discriminate.
    destruct (String.eqb _ state) eqn:Eq; try discriminate.
    injection H as H1 H2. repeat split; auto.
    exists state; split; [reflexivity|]. now apply String.eqb_eq.
Qed.

End Steps.

(* ------------------------------------------------------------------ *)
(** ** Segments of a schedule *)

Section Segments.

Context {World CobraConfig : Type}.
Variable bot : CobraBot World.
Variable a : RunArgs.

Let St := State World CobraConfig.

Lemma sleep_for_app (l1 l2 : list Action) (s : St) :
  sleep_for bot a (l1 ++ l2) s =
  and_then (sleep_for bot a l1 s) (sleep_for bot a l2).
Proof.
  revert s. induction l1 as [|act l1 IH]; intros s; simpl; auto.
  destruct (step bot a act s); simpl; auto.
Qed.

Lemma sleep_for_invariant (P : St -> Prop) (segment : list Action) :
  (forall act s s', In act segment ->
                    step bot a act s = Go s' -> P s -> P s') ->
  forall s s', sleep_for bot a segment s = Go s' -> P s -> P s'.
Proof.
  induction segment as [|act rest IH]; intros Hstep s s' H HP; simpl in H.
  - now go_inv.
  - destruct (step bot a act s) as [s1|] eqn:E; simpl in H; [|discriminate].
    apply IH with (s := s1); auto.
    + intros act' x x' Hin. apply Hstep. now right.
    + apply Hstep with (act := act) (s := s); auto. now left.
Qed.

Lemma sleep_for_stop (segment : list Action) (s s' : St) :
  sleep_for bot a segment s = Go s' -> stop s' = stop s.
Proof.
  intros H.
  apply (sleep_for_invariant (fun x => stop x = stop s) segment) with (s := s);
    auto.
  intros act x x' _ Hx Hs. rewrite <- Hs. eapply step_stop; eauto.
Qed.

Lemma sleep_for_fatal_stays (segment : list Action) (s s' : St) :
  sleep_for bot a segment s = Go s' ->
  fatalCobraError s = true -> fatalCobraError s' = true.
Proof.
  apply (sleep_for_invariant (fun x => fatalCobraError x = true)).
  intros act x x' _ Hx Hf. rewrite (step_fatal _ _ _ _ Hx), Hf.
  apply orb_true_r.
Qed.

Lemma sleep_for_fatal_event (segment : list Action) (event : CobraEvent)
      (s s' : St) :
  sleep_for bot a segment s = Go s' ->
  In (Deliver event) segment -> fatal_kind (type event) = true ->
  fatalCobraError s' = true.
Proof.
  revert s. induction segment as [|act rest IH]; intros s H Hin Hk.
  - destruct Hin.
  - simpl in H.
    destruct (step bot a act s) as [s1|] eqn:E; simpl in H; [|discriminate].
    destruct Hin as [->|Hin].
    + apply (sleep_for_fatal_stays rest s1); auto.
      rewrite (step_fatal _ _ _ _ E), Hk. reflexivity.
    + apply IH with (s := s1); auto.
Qed.

Lemma sleep_for_armed (segment : list Action) (s s' : St) :
  sleep_for bot a segment s = Go s' ->
  heartbeat_armed a s -> heartbeat_armed a s'.
Proof.
  apply (sleep_for_invariant (heartbeat_armed a)).
  intros act x x' _. apply step_armed.
Qed.

(** A segment ends the process only through the heartbeat, with code 1,
    and not once [stop] is set. *)
Lemma sleep_for_exit (segment : list Action) (s s' : St) (code : Z) :
  sleep_for bot a segment s = Exit code s' ->
  code = 1 /\ stop s = false /\ In (Work Heartbeat) segment /\
  (heartbeat_armed a s -> enableHeartbeat a = true).
Proof.
  revert s. induction segment as [|act rest IH]; intros s H; simpl in H.
  - discriminate.
  - destruct (step bot a act s) as [s1|c s1] eqn:E; simpl in H.
    + destruct (IH s1 H) as (H1 & H2 & H3 & H4).
      repeat split; auto.
      * rewrite <- H2. symmetry. eapply step_stop; eauto.
      * now right.
      * intros Ha. apply H4. eapply step_armed; eauto.
    + injection H as -> ->.
      destruct (step_exit _ _ _ _ E) as (-> & -> & Hs & state & Ht & _).
      repeat split; auto.
      * now left.
      * unfold heartbeat_armed. now rewrite Ht.
Qed.

End Segments.

(* ------------------------------------------------------------------ *)
(** ** Shutdown *)

Section Shutdown.

Context {World CobraConfig : Type}.
Variable bot : CobraBot World.
Variable a : RunArgs.

Let St := State World CobraConfig.

Lemma dispatch_frame (verbose : bool) (msg : Json) (s : St) :
  let s' := dispatch bot verbose msg s in
  stop s' = stop s /\ fatalCobraError s' = fatalCobraError s /\
  conn s' = conn s /\ t1 s' = t1 s /\ t2 s' = t2 s /\ t3 s' = t3 s /\
  receivedCount s' = receivedCount s /\ queueManager s' = queueManager s.
Proof.
  unfold dispatch. break_match; simpl; repeat split; reflexivity.
Qed.

(** A worker step touches neither the connection nor the flags [stop]
    and [fatalCobraError], and a thread that has returned stays so. *)
Lemma work_frame (w : Worker) (s s' : St) :
  work bot a w s = Go s' ->
  stop s' = stop s /\ fatalCobraError s' = fatalCobraError s /\
  conn s' = conn s /\
  (forall w0, finished w0 s = true -> finished w0 s' = true).
Proof.
  intros H.
  assert (Hs : stop s' = stop s) by (apply (step_stop bot a (Work w) _ H)).
  assert (Hf : fatalCobraError s' = fatalCobraError s)
    by (apply (step_fatal bot a (Work w) _ H)).
  repeat split; auto.
  - destruct w; simpl in H.
    + open_step. go_inv. break_match; reflexivity.
    + open_step. break_match; go_inv; reflexivity.
    + go_inv. unfold sender, sender_done.
      destruct (t3 s) as [ | m | ]; [ | | reflexivity].
      * break_match; reflexivity.
      * destruct (dispatch_frame (verbose a) m s) as (_ & _ & E & _).
        break_match; simpl; exact E.
  - intros w0 Hw0. destruct w; simpl in H.
    + open_step. go_inv. unfold finished in *.
      destruct w0; break_match; simpl in *; congruence.
    + open_step. unfold finished in *.
      destruct w0; break_match; go_inv; simpl in *; congruence.
    + go_inv. unfold sender, sender_done.
      destruct (t3 s) as [ | m | ] eqn:E3; [ | | assumption].
      * unfold finished in *. rewrite ?E3 in Hw0.
        destruct w0; break_match; simpl in *; congruence.
      * destruct (dispatch_frame (verbose a) m s)
          as (_ & _ & _ & E1 & E2 & _).
        unfold finished in *. rewrite ?E3 in Hw0.
        destruct w0; try discriminate;
          destruct (stop (dispatch bot (verbose a) m s)); simpl;
          rewrite ?E1, ?E2; assumption.
Qed.

(** Once [stop] is set no worker step ends the process. *)
Lemma work_stopped (w : Worker) (s : St) :
  stop s = true -> exists s', work bot a w s = Go s'.
Proof.
  intros Hs. destruct (work bot a w s) as [s'|code s'] eqn:E.
  - now exists s'.
  - destruct (step_exit bot a (Work w) _ E) as (_ & _ & Hs' & _).
    congruence.
Qed.

(** With [stop] set every worker leaves its loop at its next test of
    [stop]: the timer and the heartbeat at the head of their loops, the
    sender after [pop()] or after the call of the sink. *)
Lemma work_observes_stop (s : St) :
  stop s = true ->
  (t1 s = TimerLoop -> t1 (timer s) = TimerDone)
  /\ (forall state, t2 s = HeartbeatLoop state ->
        exists s', heartbeat (enableHeartbeat a) s = Go s' /\
                   t2 s' = HeartbeatDone)
  /\ (t3 s = SenderPop -> t3 (sender bot (verbose a) s) = SenderDone)
  /\ (forall msg, t3 s = SenderSend msg ->
        t3 (sender bot (verbose a) s) = SenderDone).
Proof.
  intros Hs. repeat split.
  - intros E. unfold timer. now rewrite E, Hs.
  - intros state E. unfold heartbeat. rewrite E, Hs. eexists; split; reflexivity.
  - intros E. unfold sender. rewrite E.
    destruct (QueueManager.pop (queueManager s)) as [msg q]. simpl.
    now rewrite Hs.
  - intros msg E. unfold sender. rewrite E.
    destruct (dispatch_frame (verbose a) msg s) as (E1 & _).
    now rewrite E1, Hs.
Qed.

Lemma join_finished (w : Worker) (s : St) :
  stop s = true ->
  exists s', join bot a w s = Go s' /\ finished w s' = true.
Proof.
  intros Hs. unfold join.
  destruct (work_stopped w s Hs) as (s1 & E1). rewrite E1. simpl.
  destruct (work_frame w s E1) as (Hs1 & _).
  rewrite Hs in Hs1.
  destruct (work_stopped w s1 Hs1) as (s2 & E2). rewrite E2.
  exists s2. split; [reflexivity|].
  destruct (work_observes_stop s Hs) as (T & H & P & S).
  destruct (work_observes_stop s1 Hs1) as (T1 & H1 & P1 & S1).
  destruct (work_frame w s1 E2) as (_ & _ & _ & Hmono).
  destruct w; simpl in E1, E2; go_inv.
  - destruct (t1 s) eqn:E.
    + apply (Hmono Timer). simpl. rewrite T by reflexivity. reflexivity.
    + apply (Hmono Timer). simpl. unfold timer. rewrite E. now rewrite E.
  - destruct (t2 s) as [ | state | ] eqn:E.
    + unfold heartbeat in E1. rewrite E in E1.
      destruct (negb (enableHeartbeat a)); go_inv.
      * apply (Hmono Heartbeat). reflexivity.
      * destruct (H1 "na" eq_refl) as (s3 & E3 & E4).
        rewrite E3 in E2. go_inv. simpl. now rewrite E4.
    + destruct (H state eq_refl) as (s3 & E3 & E4).
      rewrite E3 in E1. go_inv.
      apply (Hmono Heartbeat). simpl. now rewrite E4.
    + unfold heartbeat in E1. rewrite E in E1. go_inv.
      apply (Hmono Heartbeat). simpl. now rewrite E.
  - destruct (t3 s) as [ | msg | ] eqn:E.
    + apply (Hmono Sender). simpl. rewrite P by reflexivity. reflexivity.
    + apply (Hmono Sender). simpl. rewrite (S msg) by reflexivity. reflexivity.
    + apply (Hmono Sender). simpl. unfold sender. rewrite E. now rewrite E.
Qed.

Lemma join_as_segment (w : Worker) (s : St) :
  join bot a w s = sleep_for bot a [Work w; Work w] s.
Proof.
  unfold join. simpl. destruct (work bot a w s) as [s1|]; simpl; auto.
  destruct (work bot a w s1); reflexivity.
Qed.

(** The workers' part of the cleanup, as one segment. *)
Lemma shutdown_as_segment (steps : list Worker) (s : St) :
  shutdown bot a steps s =
  sleep_for bot a
    (map Work (steps ++ [Timer; Timer; Heartbeat; Heartbeat; Sender; Sender]))
    (set_stop true (set_conn (disconnect (conn s)) s)).
Proof.
  unfold shutdown, join. rewrite map_app, sleep_for_app.
  destruct (sleep_for bot a (map Work steps) _) as [s3|]; simpl; auto.
  destruct (heartbeat (enableHeartbeat a) (timer (timer s3))) as [s4|];
    simpl; auto.
Qed.

Lemma workers_frame (steps : list Worker) (s s' : St) :
  sleep_for bot a (map Work steps) s = Go s' ->
  stop s' = stop s /\ fatalCobraError s' = fatalCobraError s /\
  conn s' = conn s /\
  (forall w0, finished w0 s = true -> finished w0 s' = true).
Proof.
  revert s. induction steps as [|w steps IH]; intros s H; simpl in H.
  - go_inv. repeat split; auto.
  - destruct (work bot a w s) as [s1|] eqn:E; simpl in H; [|discriminate].
    destruct (work_frame w s E) as (A1 & A2 & A3 & A4).
    destruct (IH s1 H) as (B1 & B2 & B3 & B4).
    repeat split; try congruence. auto.
Qed.

Lemma workers_stopped (steps : list Worker) (s : St) :
  stop s = true -> exists s', sleep_for bot a (map Work steps) s = Go s'.
Proof.
  intros Hs. destruct (sleep_for bot a (map Work steps) s) as [s'|c s'] eqn:E.
  - now exists s'.
  - destruct (sleep_for_exit bot a _ _ E) as (_ & Hs' & _). congruence.
Qed.

(** The cleanup always comes to its end: the connection is closed,
    [stop] is set, the three workers have returned, and
    [fatalCobraError] is what it was. *)
Lemma shutdown_spec (steps : list Worker) (s : St) :
  exists s',
    shutdown bot a steps s = Go s' /\
    stop s' = true /\ connected (conn s') = false /\
    finished Timer s' = true /\ finished Heartbeat s' = true /\
    finished Sender s' = true /\
    fatalCobraError s' = fatalCobraError s.
Proof.
  unfold shutdown.
  set (s2 := set_stop true (set_conn (disconnect (conn s)) s)).
  assert (H2 : stop s2 = true) by reflexivity.
  destruct (workers_stopped steps s2 H2) as (s3 & E3). rewrite E3. cbn [and_then].
  destruct (workers_frame steps s2 E3) as (A1 & A2 & A3 & _).
  assert (H3 : stop s3 = true) by congruence.
  destruct (join_finished Timer s3 H3) as (s4 & E4 & F4). rewrite E4. cbn [and_then].
  rewrite join_as_segment in E4.
  destruct (workers_frame [Timer; Timer] s3 E4) as (B1 & B2 & B3 & _).
  assert (H4 : stop s4 = true) by congruence.
  destruct (join_finished Heartbeat s4 H4) as (s5 & E5 & F5). rewrite E5. cbn [and_then].
  rewrite join_as_segment in E5.
  destruct (workers_frame [Heartbeat; Heartbeat] s4 E5) as (C1 & C2 & C3 & C4).
  assert (H5 : stop s5 = true) by congruence.
  destruct (join_finished Sender s5 H5) as (s6 & E6 & F6). rewrite E6.
  rewrite join_as_segment in E6.
  destruct (workers_frame [Sender; Sender] s5 E6) as (D1 & D2 & D3 & D4).
  exists s6. repeat split; auto; try congruence.
  - rewrite D3, C3, B3, A3. reflexivity.
  - rewrite D2, C2, B2, A2. reflexivity.
Qed.

(** A property kept by every worker step is kept by the cleanup. *)
Lemma shutdown_invariant (P : St -> Prop) (steps : list Worker) (s s' : St) :
  (forall w x x', work bot a w x = Go x' -> P x -> P x') ->
  shutdown bot a steps s = Go s' ->
  P (set_stop true (set_conn (disconnect (conn s)) s)) -> P s'.
Proof.
  intros Hw H. rewrite shutdown_as_segment in H.
  apply (sleep_for_invariant bot a P) with (2 := H).
  intros act x x' Hin. apply in_map_iff in Hin.
  destruct Hin as (w & <- & _). apply Hw.
Qed.

End Shutdown.

(* ------------------------------------------------------------------ *)
(** ** The supervision loop *)

Section Supervision.

Context {World CobraConfig : Type}.
Variable bot : CobraBot World.
Variable a : RunArgs.

Let St := State World CobraConfig.

Lemma after_ticks_cons (segment : list Action) (rest : list (list Action))
      (k : nat) (s : St) :
  after_ticks bot a (segment :: rest) (S k) s =
  and_then (sleep_for bot a segment s) (after_ticks bot a rest k).
Proof. unfold after_ticks. simpl. apply sleep_for_app. Qed.

Lemma after_ticks_one (segment : list Action) (rest : list (list Action))
      (s : St) :
  after_ticks bot a (segment :: rest) 1 s = sleep_for bot a segment s.
Proof.
  rewrite after_ticks_cons.
  destruct (sleep_for bot a segment s); reflexivity.
Qed.

(** A property kept by every step of the schedule holds wherever
    supervision stands. *)
Lemma supervise_forever_invariant (P : St -> Prop)
      (segments : list (list Action)) :
  (forall act s s', In act (List.concat segments) ->
                    step bot a act s = Go s' -> P s -> P s') ->
  forall n s,
    P s ->
    match supervise_forever bot a segments n s with
    | Ended s' _ | Ongoing s' _ => P s'
    | Killed _ _ => True
    end.
Proof.
  induction segments as [|segment rest IH]; intros Hstep n s HP;
    simpl; auto.
  destruct (sleep_for bot a segment s) as [s1|] eqn:E; auto.
  assert (P s1).
  { apply (sleep_for_invariant bot a P segment) with (s := s); auto.
    intros act x x' Hin. apply Hstep. simpl. apply in_or_app. now left. }
  destruct (fatalCobraError s1); auto.
  apply IH; auto.
  intros act x x' Hin. apply Hstep. simpl. apply in_or_app. now right.
Qed.

Lemma supervise_for_invariant (P : St -> Prop)
      (segments : list (list Action)) :
  (forall act s s', In act (List.concat segments) ->
                    step bot a act s = Go s' -> P s -> P s') ->
  forall i n s,
    P s ->
    match supervise_for bot a i segments n s with
    | Ended s' _ | Ongoing s' _ => P s'
    | Killed _ _ => True
    end.
Proof.
  induction segments as [|segment rest IH]; intros Hstep i n s HP;
    simpl; destruct (i <? runtime a); auto.
  destruct (sleep_for bot a segment s) as [s1|] eqn:E; auto.
  assert (P s1).
  { apply (sleep_for_invariant bot a P segment) with (s := s); auto.
    intros act x x' Hin. apply Hstep. simpl. apply in_or_app. now left. }
  destruct (fatalCobraError s1); auto.
  apply IH; auto.
  intros act x x' Hin. apply Hstep. simpl. apply in_or_app. now right.
Qed.

Lemma supervise_invariant (P : St -> Prop) (segments : list (list Action)) :
  (forall act s s', In act (List.concat segments) ->
                    step bot a act s = Go s' -> P s -> P s') ->
  forall s,
    P s ->
    match supervise bot a segments s with
    | Ended s' _ | Ongoing s' _ => P s'
    | Killed _ _ => True
    end.
Proof.
  intros Hstep s HP. unfold supervise.
  destruct (runtime a =? -1).
  - now apply supervise_forever_invariant.
  - now apply supervise_for_invariant.
Qed.

(** In bounded mode a schedule with [runtime] ticks or more sees the
    loop left. *)
Lemma supervise_for_enough (segments : list (list Action)) (i : Z) (n : nat)
      (s : St) :
  runtime a - i <= Z.of_nat (List.length segments) ->
  forall s' m, supervise_for bot a i segments n s <> Ongoing s' m.
Proof.
  revert i n s. induction segments as [|segment rest IH]; intros i n s Hl s' m;
    simpl supervise_for; destruct (Z.ltb_spec i (runtime a)) as [Hi|Hi];
    try discriminate.
  - simpl in Hl. lia.
  - destruct (sleep_for bot a segment s) as [s1|]; [|discriminate].
    destruct (fatalCobraError s1); [discriminate|].
    apply IH. simpl List.length in Hl. lia.
Qed.

(** A fatal event delivered during a tick the loop can reach makes the
    loop end with [fatalCobraError] set, unless the heartbeat ends the
    process first. *)
Lemma supervise_forever_fatal_event (segments : list (list Action))
      (n k : nat) (s : St) (segment : list Action) (event : CobraEvent) :
  nth_error segments k = Some segment ->
  In (Deliver event) segment -> fatal_kind (type event) = true ->
  match supervise_forever bot a segments n s with
  | Ended s' _ => fatalCobraError s' = true
  | Killed _ _ => True
  | Ongoing _ _ => False
  end.
Proof.
  revert n k s. induction segments as [|seg0 rest IH]; intros n k s Hk Hin Hf.
  - destruct k; discriminate.
  - simpl. destruct (sleep_for bot a seg0 s) as [s1|] eqn:E; auto.
    destruct (fatalCobraError s1) eqn:F; auto.
    destruct k as [|k]; simpl in Hk.
    + injection Hk as ->.
      rewrite (sleep_for_fatal_event bot a _ _ _ E Hin Hf) in F.
      discriminate.
    + eapply IH; eauto.
Qed.

Lemma supervise_for_fatal_event (segments : list (list Action)) (i : Z)
      (n k : nat) (s : St) (segment : list Action) (event : CobraEvent) :
  nth_error segments k = Some segment ->
  In (Deliver event) segment -> fatal_kind (type event) = true ->
  i + Z.of_nat k < runtime a ->
  match supervise_for bot a i segments n s with
  | Ended s' _ => fatalCobraError s' = true
  | Killed _ _ => True
  | Ongoing _ _ => False
  end.
Proof.
  revert i n k s.
  induction segments as [|seg0 rest IH]; intros i n k s Hk Hin Hf Hi.
  - destruct k; discriminate.
  - simpl. destruct (Z.ltb_spec i (runtime a)) as [Hlt|Hge]; [|lia].
    destruct (sleep_for bot a seg0 s) as [s1|] eqn:E; auto.
    destruct (fatalCobraError s1) eqn:F; auto.
    destruct k as [|k]; simpl in Hk.
    + injection Hk as ->.
      rewrite (sleep_for_fatal_event bot a _ _ _ E Hin Hf) in F.
      discriminate.
    + eapply IH; eauto. lia.
Qed.

(** The process ends during supervision only through the armed
    heartbeat, with code 1. *)
Lemma supervise_forever_killed (segments : list (list Action)) (n : nat)
      (s s' : St) (code : Z) :
  supervise_forever bot a segments n s = Killed code s' ->
  heartbeat_armed a s -> code = 1 /\ enableHeartbeat a = true.
Proof.
  revert n s. induction segments as [|segment rest IH]; intros n s H Ha;
    simpl in H; [discriminate|].
  destruct (sleep_for bot a segment s) as [s1|c s1] eqn:E.
  - destruct (fatalCobraError s1); [discriminate|].
    apply (IH _ _ H). eapply sleep_for_armed; eauto.
  - injection H as -> ->.
    destruct (sleep_for_exit bot a _ _ E) as (H1 & _ & _ & H4). auto.
Qed.

Lemma supervise_for_killed (segments : list (list Action)) (i : Z) (n : nat)
      (s s' : St) (code : Z) :
  supervise_for bot a i segments n s = Killed code s' ->
  heartbeat_armed a s -> code = 1 /\ enableHeartbeat a = true.
Proof.
  revert i n s. induction segments as [|segment rest IH]; intros i n s H Ha;
    simpl in H; destruct (i <? runtime a); try discriminate.
  destruct (sleep_for bot a segment s) as [s1|c s1] eqn:E.
  - destruct (fatalCobraError s1); [discriminate|].
    apply (IH _ _ _ H). eapply sleep_for_armed; eauto.
  - injection H as -> ->.
    destruct (sleep_for_exit bot a _ _ E) as (H1 & _ & _ & H4). auto.
Qed.

Lemma supervise_killed (segments : list (list Action)) (s s' : St)
      (code : Z) :
  supervise bot a segments s = Killed code s' ->
  heartbeat_armed a s -> code = 1 /\ enableHeartbeat a = true.
Proof.
  unfold supervise. destruct (runtime a =? -1).
  - apply supervise_forever_killed.
  - apply supervise_for_killed.
Qed.

(** *** Counting ticks *)

(** Unbounded mode, no fatal error seen: every tick of the schedule is
    executed and the loop goes on. *)
Lemma supervise_forever_quiet (segments : list (list Action)) (n : nat)
      (s : St) :
  (forall k, (1 <= k <= List.length segments)%nat ->
             quiet (after_ticks bot a segments k s)) ->
  exists s',
    supervise_forever bot a segments n s
    = Ongoing s' (n + List.length segments) /\
    after_ticks bot a segments (List.length segments) s = Go s'.
Proof.
  revert n s. induction segments as [|segment rest IH]; intros n s Hq.
  - exists s. simpl. rewrite Nat.add_0_r. auto.
  - simpl supervise_forever.
    destruct (Hq 1%nat) as (s1 & E1 & F1); [simpl; lia|].
    rewrite after_ticks_one in E1. rewrite E1, F1.
    destruct (IH (S n) s1) as (s' & E' & A').
    + intros k Hk. specialize (Hq (S k)).
      rewrite after_ticks_cons, E1 in Hq. apply Hq. simpl. lia.
    + exists s'. split.
      * rewrite E'. f_equal. simpl. lia.
      * simpl List.length. rewrite after_ticks_cons, E1. exact A'.
Qed.

(** Unbounded mode: the loop is left at the first tick after which
    [fatalCobraError] is set. *)
Lemma supervise_forever_alarm (segments : list (list Action)) (n k : nat)
      (s : St) :
  (k < List.length segments)%nat ->
  (forall j, (1 <= j <= k)%nat -> quiet (after_ticks bot a segments j s)) ->
  alarmed (after_ticks bot a segments (S k) s) ->
  exists s',
    supervise_forever bot a segments n s = Ended s' (n + S k) /\
    after_ticks bot a segments (S k) s = Go s' /\
    fatalCobraError s' = true.
Proof.
  revert n k s. induction segments as [|segment rest IH]; intros n k s Hk Hq Ha.
  - simpl in Hk. lia.
  - simpl supervise_forever. destruct k as [|k].
    + destruct Ha as (s1 & E1 & F1). exists s1.
      rewrite after_ticks_one in *. rewrite E1, F1.
      repeat split; auto. f_equal. lia.
    + destruct (Hq 1%nat) as (s1 & E1 & F1); [lia|].
      rewrite after_ticks_one in E1. rewrite E1, F1.
      destruct (IH (S n) k s1) as (s' & E' & A' & F').
      * simpl in Hk. lia.
      * intros j Hj. specialize (Hq (S j)).
        rewrite after_ticks_cons, E1 in Hq. apply Hq. lia.
      * rewrite after_ticks_cons, E1 in Ha. exact Ha.
      * exists s'. repeat split; auto.
        -- rewrite E'. f_equal. lia.
        -- rewrite after_ticks_cons, E1. exact A'.
Qed.

(** Bounded mode, no fatal error seen: the loop runs until [i] reaches
    [runtime]. *)
Lemma supervise_for_quiet (segments : list (list Action)) (i : Z) (n : nat)
      (s : St) :
  runtime a - i <= Z.of_nat (List.length segments) ->
  (forall k, (1 <= k)%nat -> Z.of_nat k <= runtime a - i ->
             quiet (after_ticks bot a segments k s)) ->
  exists s',
    supervise_for bot a i segments n s
    = Ended s' (n + Z.to_nat (runtime a - i)) /\
    after_ticks bot a segments (Z.to_nat (runtime a - i)) s = Go s'.
Proof.
  revert i n s. induction segments as [|segment rest IH]; intros i n s Hl Hq;
    simpl supervise_for; destruct (Z.ltb_spec i (runtime a)) as [Hi|Hi].
  - simpl in Hl. lia.
  - exists s. replace (Z.to_nat (runtime a - i)) with 0%nat by lia.
    rewrite Nat.add_0_r. auto.
  - destruct (Hq 1%nat) as (s1 & E1 & F1); [lia|lia|].
    rewrite after_ticks_one in E1. rewrite E1, F1.
    destruct (IH (i + 1) (S n) s1) as (s' & E' & A').
    + simpl List.length in Hl. lia.
    + intros k Hk1 Hk2. specialize (Hq (S k)).
      rewrite after_ticks_cons, E1 in Hq. apply Hq; lia.
    + exists s'.
      replace (Z.to_nat (runtime a - i))
        with (S (Z.to_nat (runtime a - (i + 1)))) by lia.
      split.
      * rewrite E'. f_equal. lia.
      * rewrite after_ticks_cons, E1. exact A'.
  - exists s. replace (Z.to_nat (runtime a - i)) with 0%nat by lia.
    rewrite Nat.add_0_r. auto.
Qed.

(** Bounded mode: the loop is left early at the first tick after which
    [fatalCobraError] is set. *)
Lemma supervise_for_alarm (segments : list (list Action)) (i : Z)
      (n k : nat) (s : St) :
  i + Z.of_nat k < runtime a ->
  (k < List.length segments)%nat ->
  (forall j, (1 <= j <= k)%nat -> quiet (after_ticks bot a segments j s)) ->
  alarmed (after_ticks bot a segments (S k) s) ->
  exists s',
    supervise_for bot a i segments n s = Ended s' (n + S k) /\
    after_ticks bot a segments (S k) s = Go s' /\
    fatalCobraError s' = true.
Proof.
  revert i n k s.
  induction segments as [|segment rest IH]; intros i n k s Hi Hk Hq Ha.
  - simpl in Hk. lia.
  - simpl supervise_for.
    destruct (Z.ltb_spec i (runtime a)) as [Hlt|Hge]; [|lia].
    destruct k as [|k].
    + destruct Ha as (s1 & E1 & F1). exists s1.
      rewrite after_ticks_one in *. rewrite E1, F1.
      repeat split; auto. f_equal. lia.
    + destruct (Hq 1%nat) as (s1 & E1 & F1); [lia|].
      rewrite after_ticks_one in E1. rewrite E1, F1.
      destruct (IH (i + 1) (S n) k s1) as (s' & E' & A' & F').
      * lia.
      * simpl in Hk. lia.
      * intros j Hj. specialize (Hq (S j)).
        rewrite after_ticks_cons, E1 in Hq. apply Hq. lia.
      * rewrite after_ticks_cons, E1 in Ha. exact Ha.
      * exists s'. repeat split; auto.
        -- rewrite E'. f_equal. lia.
        -- rewrite after_ticks_cons, E1. exact A'.
Qed.

End Supervision.

(* ------------------------------------------------------------------ *)
(** ** Whole executions *)

Section Executions.

Context {World CobraConfig : Type}.
Variable bot : CobraBot World.
Variable config : CobraConfig.
Variable a : RunArgs.
Variable world : World.

Let St := State World CobraConfig.

Lemma start_armed : heartbeat_armed a (start config a world).
Proof. exact I. Qed.

Lemma start_counted : counted (start config a world).
Proof. reflexivity. Qed.

(** Once supervision is over, [run] returns. *)
Lemma execute_ended (sched : Schedule) (s : St) (n : nat) :
  supervise bot a (ticks sched) (start config a world) = Ended s n ->
  exists s',
    execute bot config a world sched = Completed s' n /\
    shutdown bot a (joining sched) s = Go s' /\
    stop s' = true /\ connected (conn s') = false /\
    finished Timer s' = true /\ finished Heartbeat s' = true /\
    finished Sender s' = true /\
    fatalCobraError s' = fatalCobraError s.
Proof.
  intros E. unfold execute. rewrite E.
  destruct (shutdown_spec bot a (joining sched) s)
    as (s' & E' & H1 & H2 & H3 & H4 & H5 & H6).
  exists s'. rewrite E'. repeat split; auto.
Qed.

Lemma execute_completed (sched : Schedule) (s' : St) (n : nat) :
  execute bot config a world sched = Completed s' n ->
  exists s,
    supervise bot a (ticks sched) (start config a world) = Ended s n /\
    shutdown bot a (joining sched) s = Go s'.
Proof.
  unfold execute.
  destruct (supervise bot a (ticks sched) (start config a world))
    as [s m| |] eqn:E; try discriminate.
  destruct (shutdown bot a (joining sched) s) as [x|] eqn:E';
    try discriminate.
  intros H. injection H as -> ->. now exists s.
Qed.

(** The process ends only through the enabled heartbeat, with code 1. *)
Lemma execute_terminated (sched : Schedule) (s : St) (code : Z) :
  execute bot config a world sched = Terminated code s ->
  code = 1 /\ enableHeartbeat a = true.
Proof.
  unfold execute.
  destruct (supervise bot a (ticks sched) (start config a world))
    as [x m|c x|] eqn:E; try discriminate.
  - destruct (shutdown_spec bot a (joining sched) x) as (s' & E' & _).
    rewrite E'. discriminate.
  - intros H. injection H as -> ->.
    apply (supervise_killed bot a _ _ E). apply start_armed.
Qed.

(** A property kept by every step of the schedule and by every worker
    step, and blind to [stop] and [conn], holds when [run] returns. *)
Lemma execute_invariant (P : St -> Prop) (sched : Schedule) (s : St)
      (n : nat) :
  (forall act x x', In act (List.concat (ticks sched)) ->
                    step bot a act x = Go x' -> P x -> P x') ->
  (forall w x x', work bot a w x = Go x' -> P x -> P x') ->
  (forall x, P x -> P (set_stop true (set_conn (disconnect (conn x)) x))) ->
  P (start config a world) ->
  execute bot config a world sched = Completed s n -> P s.
Proof.
  intros Hstep Hwork Hset H0 E.
  destruct (execute_completed sched E) as (x & Ex & Es).
  pose proof (supervise_invariant bot a P (ticks sched) Hstep
                (start config a world) H0) as Hx.
  rewrite Ex in Hx.
  apply (shutdown_invariant bot a P (joining sched) x); auto.
Qed.

Lemma execute_counted (sched : Schedule) (s : St) (n : nat) :
  execute bot config a world sched = Completed s n -> counted s.
Proof.
  apply execute_invariant.
  - intros act x x' _. apply step_counted.
  - intros w x x'. apply (step_counted bot a (Work w)).
  - intros x Hx. exact Hx.
  - apply start_counted.
Qed.

End Executions.

(* ------------------------------------------------------------------ *)
(** ** Runs that send nothing, runs without fatal events *)

Section Accounting.

Context {World CobraConfig : Type}.
Variable bot : CobraBot World.
Variable config : CobraConfig.
Variable a : RunArgs.
Variable world : World.

Let St := State World CobraConfig.



(** A bounded run over a schedule with enough ticks and without fatal
    events returns with [fatalCobraError] clear, unless the enabled
    heartbeat ends the process. *)
Lemma execute_bounded_quiet (sched : Schedule) :
  runtime a <> -1 ->
  runtime a <= Z.of_nat (List.length (ticks sched)) ->
  (forall event, In (Deliver event) (List.concat (ticks sched)) ->
                 fatal_kind (type event) = false) ->
  (exists s n, execute bot config a world sched = Completed s n /\
               fatalCobraError s = false)
  \/ (enableHeartbeat a = true /\
      exists s, execute bot config a world sched = Terminated 1 s).
Proof.
  intros Hr Hl Hq.
  destruct (execute bot config a world sched) as [s n|code s|s n] eqn:E.
  - left. exists s, n. split; auto.
    apply (execute_invariant bot config a world
             (fun x => fatalCobraError x = false) sched) with (n := n); auto.
    + intros act x x' Hin Hx Hf. rewrite (step_fatal _ _ _ _ Hx), Hf.
      destruct act as [event| |]; simpl; auto.
      now rewrite (Hq event Hin).
    + intros w x x' Hx Hf.
      now rewrite (step_fatal bot a (Work w) _ Hx), Hf.
  - right. destruct (execute_terminated _ _ _ _ _ E) as (-> & He).
    split; auto. now exists s.
  - exfalso. unfold execute in E.
    destruct (supervise bot a (ticks sched) (start config a world))
      as [x m|c x|x m] eqn:Ex.
    + destruct (shutdown bot a (joining sched) x); discriminate.
    + discriminate.
    + unfold supervise in Ex.
      destruct (Z.eqb_spec (runtime a) (-1)) as [|_]; [contradiction|].
      apply (supervise_for_enough bot a (ticks sched) 0 0
               (start config a world)) in Ex; auto. lia.
Qed.

Lemma accepted_all (msgs : list Json) :
  accepted (map (fun m => (m, true)) msgs) = List.length msgs.
Proof.
  unfold accepted. induction msgs as [|m msgs IH]; simpl; auto.
Qed.

End Accounting.

(* ------------------------------------------------------------------ *)
(** ** The heartbeat's snapshot string *)

Lemma append_cancel_l (p s t : string) :
  (p ++ s)%string = (p ++ t)%string -> s = t.
Proof.
  induction p as [|c p IH]; simpl; intros H; [exact H|].
  injection H as H. auto.
Qed.

(** A run of decimal digits ends where the letter [m] begins. *)
Lemma digits_then_m (d d' : Decimal.uint) (t t' : string) :
  (NilEmpty.string_of_uint d ++ String "m" t)%string
  = (NilEmpty.string_of_uint d' ++ String "m" t')%string ->
  d = d' /\ t = t'.
Proof.
  revert d'. induction d as [|d IH|d IH|d IH|d IH|d IH|d IH|d IH|d IH|d IH|d IH];
    intros [|e|e|e|e|e|e|e|e|e|e]; simpl; intros H;
    try discriminate H;
    injection H as H;
    try (split; [reflexivity|assumption]);
    destruct (IH _ H) as [-> ->]; split; reflexivity.
Qed.

Lemma string_of_uint_inj (d d' : Decimal.uint) :
  NilEmpty.string_of_uint d = NilEmpty.string_of_uint d' -> d = d'.
Proof.
  intros H. pose proof (NilEmpty.usu d) as U. rewrite H, NilEmpty.usu in U.
  now injection U.
Qed.

Lemma decimal_inj (x y : Z) : 0 <= x -> 0 <= y -> decimal x = decimal y -> x = y.
Proof.
  unfold decimal. intros Hx Hy H.
  apply string_of_uint_inj, DecimalN.Unsigned.to_uint_inj in H.
  now apply Z2N.inj.
Qed.

(** Two snapshots are the same string exactly when they show the same
    two counters. *)
Lemma snapshot_inj (r1 s1 r2 s2 : Z) :
  0 <= r1 -> 0 <= s1 -> 0 <= r2 -> 0 <= s2 ->
  snapshot r1 s1 = snapshot r2 s2 -> r1 = r2 /\ s1 = s2.
Proof.
  unfold snapshot. intros H1 H2 H3 H4 H.
  apply append_cancel_l in H.
  change ("messages sent " ++ decimal s1)%string
    with (String "m" ("essages sent " ++ decimal s1)%string) in H.
  change ("messages sent " ++ decimal s2)%string
    with (String "m" ("essages sent " ++ decimal s2)%string) in H.
  unfold decimal at 1 3 in H.
  apply digits_then_m in H. destruct H as [Hr Hs].
  apply append_cancel_l in Hs.
  split.
  - apply DecimalN.Unsigned.to_uint_inj in Hr. now apply Z2N.inj.
  - now apply decimal_inj.
Qed.

Lemma snapshot_not_na (r s : Z) : snapshot r s <> "na".
Proof. unfold snapshot. simpl. discriminate. Qed.

(** Steps of threads other than the heartbeat leave the heartbeat's
    local [state] alone. *)
Lemma step_heartbeat_local (World CobraConfig : Type) (bot : CobraBot World)
      (a : RunArgs) (act : Action) (s s' : State World CobraConfig) :
  act <> Work Heartbeat -> step bot a act s = Go s' -> t2 s' = t2 s.
Proof.
  intros Hne.
  destruct act as [event | msg pos | [ | | ]]; simpl; intros H.
  - go_inv. apply eventCallback_frame.
  - open_step. go_inv. break_match; reflexivity.
  - open_step. go_inv. break_match; reflexivity.
  - contradiction.
  - go_inv. unfold sender, sender_done.
    destruct (t3 s) as [ | m | ]; [ | | reflexivity].
    + break_match; reflexivity.
    + destruct (dispatch_frame bot (verbose a) m s) as (_ & _ & _ & _ & E & _).
      break_match; simpl; exact E.
Qed.

Lemma last_cons_default (A : Type) (l : list A) (x d : A) :
  last (x :: l) d = last l x.
Proof.
  revert x d. induction l as [|y l IH]; intros x d; [reflexivity|].
  change (last (x :: y :: l) d) with (last (y :: l) d).
  now rewrite (IH y d), (IH y x).
Qed.

(* ------------------------------------------------------------------ *)
(** ** The heartbeat in a run *)

Lemma accepted_app (l1 l2 : list (Json * bool)) :
  accepted (l1 ++ l2) = (accepted l1 + accepted l2)%nat.
Proof. unfold accepted. now rewrite filter_app, length_app. Qed.

Section Watchdog.

Context {World CobraConfig : Type}.
Variable bot : CobraBot World.
Variable a : RunArgs.

Let St := State World CobraConfig.

(** [receivedCount] is incremented by the subscription callback alone,
    once per message it takes. *)
Lemma step_admits (act : Action) (s s' : St) :
  step bot a act s = Go s' ->
  receivedCount s' = Nat.iter (admits act s) incr64 (receivedCount s).
Proof.
  destruct act as [event | msg pos | w]; simpl; intros H.
  - go_inv. apply (eventCallback_frame a event s).
  - go_inv. unfold onMessage.
    destruct (verbose a); simpl; destruct (throttled s); reflexivity.
  - destruct w; simpl in H.
    + go_inv. unfold timer.
      destruct (t1 s); [destruct (stop s)|]; reflexivity.
    + unfold heartbeat in H.
      destruct (t2 s) as [ | state | ];
        [destruct (negb (enableHeartbeat a))
        |destruct (stop s); [|destruct (String.eqb _ state); [discriminate|]]
        |]; go_inv; reflexivity.
    + go_inv. unfold sender, sender_done.
      destruct (t3 s) as [ | m | ]; [ | |reflexivity].
      * destruct (QueueManager.pop (queueManager s)) as [msg q]. simpl.
        destruct (stop s); [reflexivity|]. destruct (isNull msg); reflexivity.
      * destruct (dispatch_frame bot (verbose a) m s)
          as (_ & _ & _ & _ & _ & _ & E & _).
        destruct (stop (dispatch bot (verbose a) m s)); simpl; exact E.
Qed.

(** [sentCount] is incremented by the sender alone, once per call of the
    sink that returned [true]. *)
Lemma step_new_calls (act : Action) (s s' : St) :
  step bot a act s = Go s' ->
  exists new,
    sinkCalls s' = sinkCalls s ++ new /\
    sentCount s' = Nat.iter (accepted new) incr64 (sentCount s).
Proof.
  destruct act as [event | msg pos | w]; simpl; intros H.
  - go_inv. exists []. rewrite app_nil_r.
    destruct (eventCallback_frame a event s)
      as (B1 & _ & _ & _ & _ & _ & _ & _ & _ & B10).
    split; [exact B10|exact B1].
  - go_inv. exists []. rewrite app_nil_r. unfold onMessage.
    destruct (verbose a); simpl; destruct (throttled s); split; reflexivity.
  - destruct w; simpl in H.
    + go_inv. exists []. rewrite app_nil_r. unfold timer.
      destruct (t1 s); [destruct (stop s)|]; split; reflexivity.
    + exists []. rewrite app_nil_r. unfold heartbeat in H.
      destruct (t2 s) as [ | state | ];
        [destruct (negb (enableHeartbeat a))
        |destruct (stop s); [|destruct (String.eqb _ state); [discriminate|]]
        |]; go_inv; split; reflexivity.
    + go_inv. unfold sender, sender_done.
      destruct (t3 s) as [ | m | ].
      * exists []. rewrite app_nil_r.
        destruct (QueueManager.pop (queueManager s)) as [msg q]. simpl.
        destruct (stop s); [split; reflexivity|].
        destruct (isNull msg); split; reflexivity.
      * assert (D : exists new,
                   sinkCalls (dispatch bot (verbose a) m s)
                   = sinkCalls s ++ new /\
                   sentCount (dispatch bot (verbose a) m s)
                   = Nat.iter (accepted new) incr64 (sentCount s)).
        { unfold dispatch.
          destruct (_onBotMessageCallback bot) as [callback|].
          - destruct (callback m (verbose a) (throttled s) (sink s))
              as [[ok thr] w].
            exists [(m, ok)].
            destruct ok, (verbose a); split; reflexivity.
          - exists []. rewrite app_nil_r. split; reflexivity. }
        destruct D as (new & D1 & D2). exists new.
        destruct (stop (dispatch bot (verbose a) m s)); simpl; auto.
      * exists []. rewrite app_nil_r. split; reflexivity.
Qed.

Lemma sleep_for_admitted (segment : list Action) (s s' : St) :
  sleep_for bot a segment s = Go s' ->
  receivedCount s'
  = Nat.iter (admitted bot a segment s) incr64 (receivedCount s).
Proof.
  revert s. induction segment as [|act rest IH]; intros s H; simpl in H.
  - go_inv. reflexivity.
  - cbn [admitted].
    destruct (step bot a act s) as [s1|] eqn:E; simpl in H; [|discriminate].
    rewrite (IH s1 H), (step_admits act s E), Nat.add_comm.
    symmetry. apply Nat.iter_add.
Qed.

Lemma sleep_for_new_calls (segment : list Action) (s s' : St) :
  sleep_for bot a segment s = Go s' ->
  exists new,
    sinkCalls s' = sinkCalls s ++ new /\
    sentCount s' = Nat.iter (accepted new) incr64 (sentCount s).
Proof.
  revert s. induction segment as [|act rest IH]; intros s H; simpl in H.
  - go_inv. exists []. rewrite app_nil_r. split; reflexivity.
  - destruct (step bot a act s) as [s1|] eqn:E; simpl in H; [|discriminate].
    destruct (step_new_calls act s E) as (new1 & A1 & A2).
    destruct (IH s1 H) as (new2 & B1 & B2).
    exists (new1 ++ new2). split.
    + now rewrite B1, A1, app_assoc.
    + rewrite B2, A2, accepted_app, Nat.add_comm.
      symmetry. apply Nat.iter_add.
Qed.

(** The process is ended in the course of a sequence of actions exactly
    when the heartbeat comes to a look at which nothing has moved. *)
Lemma sleep_for_stalled (actions : list Action) (s : St) :
  (exists s', sleep_for bot a actions s = Exit 1 s') <->
  stalled_look bot a actions s.
Proof.
  split.
  - revert s. induction actions as [|act rest IH]; intros s (s' & H);
      simpl in H; [discriminate|].
    destruct (step bot a act s) as [s1|code s1] eqn:E; simpl in H.
    + destruct (IH s1 (ex_intro _ s' H)) as (pre & post & x & state & P).
      destruct P as (-> & P2 & P3 & P4 & P5).
      exists (act :: pre), post, x, state. repeat split; auto.
      simpl. now rewrite E.
    + destruct (step_exit bot a act s E) as (-> & _ & Hs & state & Ht & Hn).
      exists [], rest, s, state. repeat split; auto.
  - intros (pre & post & x & state & -> & P2 & P3 & P4 & P5).
    rewrite sleep_for_app, P2. simpl. unfold heartbeat.
    rewrite P3, P4, P5, String.eqb_refl. simpl. eexists; reflexivity.
Qed.

(** Unbounded mode: supervision is cut short at the first tick during
    which the process is ended. *)
Lemma supervise_forever_exit (segments : list (list Action)) (n : nat)
      (s s' : St) (code : Z) :
  supervise_forever bot a segments n s = Killed code s' <->
  exists k,
    (k < List.length segments)%nat /\
    (forall j, (1 <= j <= k)%nat -> quiet (after_ticks bot a segments j s)) /\
    after_ticks bot a segments (S k) s = Exit code s'.
Proof.
  revert n s. induction segments as [|segment rest IH]; intros n s.
  - simpl. split; [discriminate|]. intros (k & Hk & _). lia.
  - simpl supervise_forever. split.
    + destruct (sleep_for bot a segment s) as [s1|c s1] eqn:E.
      * destruct (fatalCobraError s1) eqn:F; [discriminate|].
        intros H. apply IH in H. destruct H as (k & Hk & Hq & He).
        exists (S k). repeat split.
        -- simpl. lia.
        -- intros j Hj. destruct j as [|j]; [lia|].
           rewrite after_ticks_cons, E. simpl.
           destruct j as [|j].
           ++ exists s1. split; [reflexivity|exact F].
           ++ apply Hq. lia.
        -- rewrite after_ticks_cons, E. exact He.
      * intros H. injection H as -> ->. exists 0%nat. repeat split.
        -- simpl. lia.
        -- intros j Hj. lia.
        -- rewrite after_ticks_one. exact E.
    + intros (k & Hk & Hq & He). destruct k as [|k].
      * rewrite after_ticks_one in He. now rewrite He.
      * destruct (Hq 1%nat) as (s1 & E1 & F1); [lia|].
        rewrite after_ticks_one in E1. rewrite E1, F1.
        apply IH. exists k. repeat split.
        -- simpl in Hk. lia.
        -- intros j Hj. specialize (Hq (S j)).
           rewrite after_ticks_cons, E1 in Hq. apply Hq. lia.
        -- rewrite after_ticks_cons, E1 in He. exact He.
Qed.

(** Bounded mode: the same, for a tick the loop gets to. *)
Lemma supervise_for_exit (segments : list (list Action)) (i : Z) (n : nat)
      (s s' : St) (code : Z) :
  supervise_for bot a i segments n s = Killed code s' <->
  exists k,
    (k < List.length segments)%nat /\ i + Z.of_nat k < runtime a /\
    (forall j, (1 <= j <= k)%nat -> quiet (after_ticks bot a segments j s)) /\
    after_ticks bot a segments (S k) s = Exit code s'.
Proof.
  revert i n s. induction segments as [|segment rest IH]; intros i n s.
  - simpl. destruct (i <? runtime a); split; try discriminate;
      intros (k & Hk & _); lia.
  - simpl supervise_for.
    destruct (Z.ltb_spec i (runtime a)) as [Hi|Hi].
    + split.
      * destruct (sleep_for bot a segment s) as [s1|c s1] eqn:E.
        -- destruct (fatalCobraError s1) eqn:F; [discriminate|].
           intros H. apply IH in H. destruct H as (k & Hk & Hb & Hq & He).
           exists (S k). repeat split.
           ++ simpl. lia.
           ++ lia.
           ++ intros j Hj. destruct j as [|j]; [lia|].
              rewrite after_ticks_cons, E. simpl.
              destruct j as [|j].
              ** exists s1. split; [reflexivity|exact F].
              ** apply Hq. lia.
           ++ rewrite after_ticks_cons, E. exact He.
        -- intros H. injection H as -> ->. exists 0%nat. repeat split.
           ++ simpl. lia.
           ++ lia.
           ++ intros j Hj. lia.
           ++ rewrite after_ticks_one. exact E.
      * intros (k & Hk & Hb & Hq & He). destruct k as [|k].
        -- rewrite after_ticks_one in He. now rewrite He.
        -- destruct (Hq 1%nat) as (s1 & E1 & F1); [lia|].
           rewrite after_ticks_one in E1. rewrite E1, F1.
           apply IH. exists k. repeat split.
           ++ simpl in Hk. lia.
           ++ lia.
           ++ intros j Hj. specialize (Hq (S j)).
              rewrite after_ticks_cons, E1 in Hq. apply Hq. lia.
           ++ rewrite after_ticks_cons, E1 in He. exact He.
    + split; [discriminate|]. intros (k & _ & Hb & _). lia.
Qed.

Lemma supervise_exit (segments : list (list Action)) (s s' : St)
      (code : Z) :
  supervise bot a segments s = Killed code s' <->
  exists k,
    (k < List.length segments)%nat /\
    (runtime a = -1 \/ Z.of_nat k < runtime a) /\
    (forall j, (1 <= j <= k)%nat -> quiet (after_ticks bot a segments j s)) /\
    after_ticks bot a segments (S k) s = Exit code s'.
Proof.
  unfold supervise. destruct (Z.eqb_spec (runtime a) (-1)) as [Hr|Hr].
  - rewrite supervise_forever_exit. split.
    + intros (k & Hk & Hq & He). exists k. repeat split; auto.
    + intros (k & Hk & _ & Hq & He). exists k. repeat split; auto.
  - rewrite supervise_for_exit. split.
    + intros (k & Hk & Hb & Hq & He). exists k.
      repeat split; auto; try (right; lia).
    + intros (k & Hk & [Hb|Hb] & Hq & He); [contradiction|].
      exists k. repeat split; auto; try lia.
Qed.

End Watchdog.

(* ================================================================== *)
(** * The claims *)

(** C1 (amended): each call of the sink changes [sentCount] by one
    increment if it returned [true] and not at all otherwise, so that
    [sentCount] counts, modulo 2^64, the calls that returned [true].  In
    a bounded run with one schedule segment per tick, in which no fatal
    event is delivered, the sink is called on exactly the [N] delivered
    messages and returns [true] each time, and [N < 2^63], [run] returns
    [N], unless the enabled heartbeat ends the process first. *)
Theorem sent_accounting (World CobraConfig : Type)
        (bot : CobraBot World) (config : CobraConfig) (a : RunArgs)
        (world : World) :
  (forall callback verbose msg (s : State World CobraConfig) ok thr w,
      _onBotMessageCallback bot = Some callback ->
      callback msg verbose (throttled s) (sink s) = (ok, thr, w) ->
      sentCount (dispatch bot verbose msg s)
      = if ok then incr64 (sentCount s) else sentCount s)
  /\ (forall sched s n,
         execute bot config a world sched = Completed s n -> counted s)
  /\ (forall sched,
         let msgs := delivered (List.concat (ticks sched)) in
         Z.of_nat (List.length (ticks sched)) = runtime a ->
         (forall event, In (Deliver event) (List.concat (ticks sched)) ->
                        fatal_kind (type event) = false) ->
         sinkCalls (final (execute bot config a world sched))
         = map (fun m => (m, true)) msgs ->
         Z.of_nat (List.length msgs) < 2 ^ 63 ->
         (run bot config a world sched
          = Returned (Z.of_nat (List.length msgs)) \/
          (enableHeartbeat a = true /\
           run bot config a world sched = Exited 1)) /\
         (enableHeartbeat a = false ->
          run bot config a world sched
          = Returned (Z.of_nat (List.length msgs)))).
Proof.
  split; [|split].
  - intros callback verbose msg s ok thr w Hcb Hr.
    unfold dispatch. rewrite Hcb, Hr. destruct ok, verbose; reflexivity.
  - intros sched s n. apply execute_counted.
  - intros sched msgs Hl Hq Hcalls HN.
    assert (Hr : runtime a <> -1) by lia.
    assert (Hl' : runtime a <= Z.of_nat (List.length (ticks sched))) by lia.
    assert (R : forall s n,
               execute bot config a world sched = Completed s n ->
               fatalCobraError s = false ->
               run bot config a world sched
               = Returned (Z.of_nat (List.length msgs))).
    { intros s n E F. pose proof (execute_counted _ _ _ _ _ E) as C.
      rewrite E in Hcalls. simpl in Hcalls.
      unfold counted in C. rewrite Hcalls, accepted_all in C.
      unfold run. rewrite E. unfold result. rewrite F, C.
      rewrite Z.mod_small by (unfold UINT64_MOD; lia).
      rewrite to_int64_small by lia. reflexivity. }
    split.
    + destruct (execute_bounded_quiet bot config a world sched Hr Hl' Hq)
        as [(s & n & E & F)|(He & s & E)].
      * left. eapply R; eauto.
      * right. unfold run. now rewrite E.
    + intros Hd.
      destruct (execute_bounded_quiet bot config a world sched Hr Hl' Hq)
        as [(s & n & E & F)|(He & _)]; [|congruence].
      eapply R; eauto.
Qed.

(** An instance of C1: three seconds, five messages, a sink that accepts
    them all. *)
Lemma sent_accounting_witness :
  run (setOnBotMessageCallback sink_accepts (newCobraBot unit)) tt
      (bounded_args 3 false) tt
      (mkSchedule
         [handshake ++ [Inbound (JInt 1) "p1"; Inbound (JInt 2) "p2";
                        Work Sender; Work Sender; Work Timer];
          [Inbound (JInt 3) "p3"; Work Sender; Work Sender; Work Sender;
           Work Sender; Inbound (JInt 4) "p4"; Inbound (JInt 5) "p5"];
          [Work Sender; Work Sender; Work Sender; Work Sender; Work Timer]]
         [])
  = Returned 5.
Proof.
  refine (proj2 (proj2 (proj2
            (@sent_accounting unit unit
               (setOnBotMessageCallback sink_accepts (newCobraBot unit)) tt
               (bounded_args 3 false) tt)) _ _ _ _ _) eq_refl).
  - reflexivity.
  - intros event Hin. simpl in Hin.
    repeat (destruct Hin as [Hin|Hin];
            [try discriminate Hin; injection Hin as <-; reflexivity|]).
    destruct Hin.
  - reflexivity.
  - reflexivity.
Defined.

(** C1 as stated fails in two ways.  First run: one message is
    delivered, neither throttled nor evicted, the sink is called on it and
    returns [true], a handshake error follows, and [run] returns -1, not
    1.  Second run: two messages are delivered and accepted by the sink,
    the counters then stand still from one look of the enabled heartbeat
    to the next, and the process exits with code 1; [run] does not
    return 2. *)
Lemma sent_accounting_other_ends :
  let bot := setOnBotMessageCallback sink_accepts (newCobraBot unit) in
  let sched :=
    mkSchedule
      [handshake ++ [Inbound (JInt 1) "p1"; Work Sender; Work Sender];
       [Deliver (plain HandshakeError)];
       [Work Timer]]
      [] in
  let e := execute bot tt (bounded_args 3 false) tt sched in
  let e' := execute bot tt (bounded_args 180 true) tt two_silent_minutes in
  (delivered (List.concat (ticks sched)) = [JInt 1]
   /\ sinkCalls (final e) = [(JInt 1, true)]
   /\ receivedCount (final e) = 1
   /\ sentCount (final e) = 1
   /\ run bot tt (bounded_args 3 false) tt sched = Returned (-1)
   /\ run bot tt (bounded_args 3 false) tt sched <> Returned 1)
  /\ (delivered (List.concat (ticks two_silent_minutes)) = [JInt 1; JInt 2]
      /\ sinkCalls (final e') = [(JInt 1, true); (JInt 2, true)]
      /\ fatalCobraError (final e') = false
      /\ run bot tt (bounded_args 180 true) tt two_silent_minutes = Exited 1
      /\ run bot tt (bounded_args 180 true) tt two_silent_minutes
         <> Returned 2).
Proof.
  vm_compute. repeat split; try reflexivity; discriminate.
Qed.

(** C2 (amended): each of HandshakeError, AuthenticationError and
    SubscriptionError makes the event callback set [fatalCobraError]; no
    other event kind changes [fatalCobraError]; and a run during which
    one of the three is delivered, in a tick the supervision loop can
    reach, returns -1, whatever was sent or not, unless the enabled
    heartbeat ends the process first; with the heartbeat disabled the run
    returns -1. *)
Theorem fatal_events_abort_run (World CobraConfig : Type)
        (bot : CobraBot World) (config : CobraConfig) (a : RunArgs)
        (world : World) :
  (forall event (s : State World CobraConfig),
      In (type event) [HandshakeError; AuthenticationError; SubscriptionError] ->
      fatalCobraError (eventCallback a event s) = true)
  /\ (forall event (s : State World CobraConfig),
         In (type event) [Open; Closed; Authenticated; Subscribed;
                          UnSubscribed; Error; Published; Pong] ->
         fatalCobraError (eventCallback a event s) = fatalCobraError s)
  /\ (forall sched k segment event,
         nth_error (ticks sched) k = Some segment ->
         In (Deliver event) segment ->
         In (type event)
            [HandshakeError; AuthenticationError; SubscriptionError] ->
         runtime a = -1 \/ Z.of_nat k < runtime a ->
         (run bot config a world sched = Returned (-1) \/
          (enableHeartbeat a = true /\
           run bot config a world sched = Exited 1)) /\
         (enableHeartbeat a = false ->
          run bot config a world sched = Returned (-1))).
Proof.
  assert (K : forall t, In t [HandshakeError; AuthenticationError;
                              SubscriptionError] -> fatal_kind t = true).
  { intros t [<-|[<-|[<-|[]]]]; reflexivity. }
  split; [|split].
  - intros event s Hin. rewrite eventCallback_fatal, (K _ Hin). reflexivity.
  - intros event s Hin. rewrite eventCallback_fatal.
    simpl in Hin.
    repeat (destruct Hin as [<-|Hin]; [reflexivity|]). destruct Hin.
  - intros sched k segment event Hk Hin Hkind Hreach.
    apply K in Hkind.
    assert (R : run bot config a world sched = Returned (-1) \/
                (enableHeartbeat a = true /\
                 run bot config a world sched = Exited 1)).
    { unfold run.
      destruct (execute bot config a world sched) as [s n|code s|s n] eqn:E.
      - left. destruct (execute_completed _ _ _ _ _ E) as (x & Ex & Es).
        destruct (execute_ended _ _ _ _ _ Ex) as (s' & E' & _ & _ & _ & _ & _ & _ & F).
        rewrite E in E'. injection E' as <-.
        assert (Fx : fatalCobraError x = true).
        { unfold supervise in Ex.
          destruct (Z.eqb_spec (runtime a) (-1)) as [Hr|Hr].
          - pose proof (supervise_forever_fatal_event bot a (ticks sched) 0 k
                          (start config a world) event Hk Hin Hkind) as H.
            now rewrite Ex in H.
          - pose proof (supervise_for_fatal_event bot a (ticks sched) 0 0 k
                          (start config a world) event Hk Hin Hkind) as H.
            rewrite Ex in H. apply H. destruct Hreach; [contradiction|lia]. }
        unfold result. now rewrite F, Fx.
      - right. destruct (execute_terminated _ _ _ _ _ E) as (-> & He). auto.
      - exfalso. unfold execute in E.
        destruct (supervise bot a (ticks sched) (start config a world))
          as [x m|c x|x m] eqn:Ex.
        + destruct (shutdown bot a (joining sched) x); discriminate.
        + discriminate.
        + unfold supervise in Ex.
          destruct (Z.eqb_spec (runtime a) (-1)) as [Hr|Hr].
          * pose proof (supervise_forever_fatal_event bot a (ticks sched) 0 k
                          (start config a world) event Hk Hin Hkind) as H.
            now rewrite Ex in H.
          * pose proof (supervise_for_fatal_event bot a (ticks sched) 0 0 k
                          (start config a world) event Hk Hin Hkind) as H.
            rewrite Ex in H. apply H. destruct Hreach; [contradiction|lia]. }
    split; [exact R|].
    intros Hd. destruct R as [R|[He _]]; [exact R|congruence].
Qed.

(** An instance of C2: a ten-second run with the heartbeat enabled, a
    handshake error during the second tick, nothing ever sent. *)
Lemma fatal_events_abort_run_witness :
  run (newCobraBot unit) tt (bounded_args 10 true) tt
      (mkSchedule [[Work Timer; Work Heartbeat; Work Heartbeat];
                   [Work Timer; Deliver (plain HandshakeError)]] [])
  = Returned (-1) \/
  (true = true /\
   run (newCobraBot unit) tt (bounded_args 10 true) tt
       (mkSchedule [[Work Timer; Work Heartbeat; Work Heartbeat];
                    [Work Timer; Deliver (plain HandshakeError)]] [])
   = Exited 1).
Proof.
  refine (proj1 (proj2 (proj2 (fatal_events_abort_run
                                 (newCobraBot unit) tt (bounded_args 10 true) tt))
                  (mkSchedule [[Work Timer; Work Heartbeat; Work Heartbeat];
                               [Work Timer; Deliver (plain HandshakeError)]] [])
                  1%nat [Work Timer; Deliver (plain HandshakeError)]
                  (plain HandshakeError) _ _ _ _)).
  - reflexivity.
  - right. left. reflexivity.
  - left. reflexivity.
  - right. reflexivity.
Defined.

(** C2 as stated fails when the enabled heartbeat ends the process
    between the delivery of the fatal event and the supervisor's next
    look at [fatalCobraError]: the handshake error is delivered during
    the sixtieth tick of a run of 120, the heartbeat then finds the
    counters where they were a minute before, and the process exits with
    code 1; [run] does not return -1. *)
Lemma fatal_event_then_heartbeat_exit :
  nth_error (ticks late_handshake_error) 59
  = Some [Deliver (plain HandshakeError); Work Heartbeat]
  /\ fatalCobraError
       (final (execute (newCobraBot unit) tt (bounded_args 120 true) tt
                       late_handshake_error)) = true
  /\ run (newCobraBot unit) tt (bounded_args 120 true) tt
         late_handshake_error = Exited 1
  /\ run (newCobraBot unit) tt (bounded_args 120 true) tt
         late_handshake_error <> Returned (-1).
Proof.
  vm_compute. repeat split; try reflexivity; discriminate.
Qed.

(** C3 (amended): for every capacity [C >= 1], after any sequence of [add]
    and [pop] calls on a queue created with capacity [C] the size is at
    most [C]; [add] on a full queue drops the head and appends at the
    tail, [add] on any other queue only appends; after [C + k] adds with
    [k > 0] and no pop, [C] successive pops return the last [C] added
    elements in insertion order and leave the queue empty; [pop] on an
    empty queue returns the null value and leaves the queue as it is. *)
Theorem bounded_queue_contract (C : nat) (HC : (1 <= C)%nat) :
  (forall ops,
      (QueueManager.size (QueueManager.exec ops (QueueManager.create C))
       <= C)%nat)
  /\ (forall q msg,
         QueueManager.size q = QueueManager.maxSize q ->
         QueueManager.items (QueueManager.add msg q) =
         tl (QueueManager.items q) ++ [msg])
  /\ (forall q msg,
         QueueManager.size q <> QueueManager.maxSize q ->
         QueueManager.items (QueueManager.add msg q) =
         QueueManager.items q ++ [msg])
  /\ (forall msgs k,
         (0 < k)%nat -> List.length msgs = (C + k)%nat ->
         QueueManager.pops C
           (QueueManager.add_all msgs (QueueManager.create C)) =
         (skipn k msgs, QueueManager.create C))
  /\ (forall q,
         QueueManager.items q = [] ->
         QueueManager.pop q = (JNull, q)).
Proof.
  repeat split.
  - intros ops.
    destruct (queue_exec_bounded ops (QueueManager.create C)) as [_ H];
      simpl; auto with arith.
  - intros q msg E. rewrite queue_add_items.
    now apply Nat.eqb_eq in E; rewrite E.
  - intros q msg E. rewrite queue_add_items.
    now apply Nat.eqb_neq in E; rewrite E.
  - intros msgs k Hk Hlen. rewrite queue_add_all_create by exact HC.
    assert (Hl : lastn C msgs = skipn k msgs).
    { unfold lastn. f_equal. lia. }
    rewrite Hl.
    assert (Hs : QueueManager.size (QueueManager.mk C (skipn k msgs)) = C).
    { unfold QueueManager.size. simpl. rewrite length_skipn. lia. }
    rewrite <- Hs at 1. now rewrite queue_pops_all.
  - intros q E. unfold QueueManager.pop. now rewrite E.
Qed.

Lemma bounded_queue_contract_witness :
  (1 <= 2)%nat /\
  QueueManager.pops 2
    (QueueManager.add_all [JString "A"; JString "B"; JString "C"]
                          (QueueManager.create 2)) =
  ([JString "B"; JString "C"], QueueManager.create 2).
Proof.
  split; [lia|].
  apply (proj1 (proj2 (proj2 (proj2 (bounded_queue_contract (C := 2) ltac:(lia)))))
           [JString "A"; JString "B"; JString "C"] 1%nat); [lia | reflexivity].
Defined.

(** C3 as stated fails for capacity 0: one [add] on a queue created with
    capacity 0 leaves one element in it. *)
Lemma bounded_queue_capacity_zero :
  ~ (QueueManager.size
       (QueueManager.exec [QueueManager.Add (JString "A")]
                          (QueueManager.create 0)) <= 0)%nat.
Proof. vm_compute. lia. Qed.

(** C4: the subscription callback looks at [throttled] as it is when the
    message arrives, however many times it was written before.  If it is
    set, [receivedCount] and the queue stay as they are; if it is clear,
    [receivedCount] is incremented once (by one below the 64-bit limit)
    and the message is added to the queue.  Nothing else but the log is
    touched in either case. *)
Theorem inbound_respects_throttle (World CobraConfig : Type)
        (verbose : bool) (msg : Json) (position : string)
        (toggles : list bool) (s0 : State World CobraConfig) :
  let s := fold_left (fun acc b => set_throttled b acc) toggles s0 in
  let s' := onMessage verbose msg position s in
  throttled s = last toggles (throttled s0)
  /\ (throttled s = true ->
      receivedCount s' = receivedCount s /\
      queueManager s' = queueManager s)
  /\ (throttled s = false ->
      receivedCount s' = incr64 (receivedCount s) /\
      (0 <= receivedCount s < UINT64_MOD - 1 ->
       receivedCount s' = receivedCount s + 1) /\
      queueManager s' = QueueManager.add msg (queueManager s))
  /\ sentCount s' = sentCount s /\ stop s' = stop s
  /\ throttled s' = throttled s
  /\ fatalCobraError s' = fatalCobraError s.
Proof.
  intros s s'. split; [|split; [|split]].
  - clear s'. subst s. revert s0.
    induction toggles as [|b rest IH]; intros s0; [reflexivity|].
    simpl fold_left. rewrite IH. simpl throttled.
    symmetry. apply last_cons_default.
  - intros T. subst s'. unfold onMessage.
    destruct verbose; simpl; rewrite T; split; reflexivity.
  - intros T. subst s'. unfold onMessage.
    destruct verbose; simpl; rewrite T; simpl;
      (split; [reflexivity|split; [apply incr64_small|reflexivity]]).
  - subst s'. unfold onMessage.
    destruct verbose; simpl; destruct (throttled s) eqn:T; simpl;
      repeat split; auto.
Qed.

(** An instance of C4: the flag set, cleared and set again before the
    message arrives. *)
Lemma inbound_respects_throttle_witness :
  let s := fold_left (fun acc b => set_throttled b acc) [true; false; true]
                     (start tt (bounded_args 3 false) tt) in
  throttled s = true /\
  receivedCount (onMessage false (JInt 7) "p" s) = receivedCount s /\
  queueManager (onMessage false (JInt 7) "p" s) = queueManager s.
Proof.
  intros s. split; [reflexivity|].
  apply (proj1 (proj2 (inbound_respects_throttle false (JInt 7) "p"
                         [true; false; true]
                         (start tt (bounded_args 3 false) tt)))).
  reflexivity.
Defined.

(** C5: a disabled heartbeat returns at its first step, before any look at
    the counters, and a run with the heartbeat disabled never ends in
    [exit].  An enabled heartbeat enters its loop; at a tick with [stop]
    clear it ends the process with code 1 exactly when the snapshot
    string it builds equals the one kept from the tick before, and
    otherwise keeps the new one; the first tick compares with "na" and
    never fires.  Two snapshot strings are equal exactly when both
    counters are, which for counters that did not decrease means that
    none moved; so between two consecutive ticks the process is ended
    exactly when [receivedCount] and [sentCount] both advanced by zero,
    that is, exactly when no message was received (taken by the
    subscription callback, [throttled] being clear) and none was sent
    (accepted by the sink) in between.  And a run ends in [exit], with
    code 1, exactly when the heartbeat comes to such a tick while the
    supervision loop is running. *)
Theorem heartbeat_watchdog (World CobraConfig : Type)
        (bot : CobraBot World) (a : RunArgs) :
  (forall s : State World CobraConfig,
      t2 s = HeartbeatStart ->
      heartbeat false s = Go (set_t2 HeartbeatDone s) /\
      heartbeat false (set_t2 HeartbeatDone s) = Go (set_t2 HeartbeatDone s))
  /\ (forall (config : CobraConfig) (world : World) sched code,
         enableHeartbeat a = false ->
         run bot config a world sched <> Exited code)
  /\ (forall s : State World CobraConfig,
         t2 s = HeartbeatStart ->
         heartbeat true s = Go (set_t2 (HeartbeatLoop "na") s))
  /\ (forall s : State World CobraConfig,
         t2 s = HeartbeatLoop "na" -> stop s = false ->
         heartbeat true s
         = Go (set_t2 (HeartbeatLoop
                         (snapshot (receivedCount s) (sentCount s))) s))
  /\ (forall (s : State World CobraConfig) state,
         t2 s = HeartbeatLoop state -> stop s = false ->
         ((exists s', heartbeat true s = Exit 1 s') <->
          snapshot (receivedCount s) (sentCount s) = state) /\
         (snapshot (receivedCount s) (sentCount s) <> state ->
          heartbeat true s
          = Go (set_t2 (HeartbeatLoop
                          (snapshot (receivedCount s) (sentCount s))) s)))
  /\ (forall r1 s1 r2 s2,
         uint64 r1 -> uint64 s1 -> uint64 r2 -> uint64 s2 ->
         r1 <= r2 -> s1 <= s2 ->
         (snapshot r2 s2 = snapshot r1 s1 <-> r2 - r1 = 0 /\ s2 - s1 = 0))
  /\ (forall (s1 s1' s2 : State World CobraConfig) state segment,
         t2 s1 = HeartbeatLoop state -> stop s1 = false ->
         heartbeat true s1 = Go s1' ->
         ~ In (Work Heartbeat) segment ->
         sleep_for bot a segment s1' = Go s2 ->
         uint64 (receivedCount s1) -> uint64 (sentCount s1) ->
         uint64 (receivedCount s2) -> uint64 (sentCount s2) ->
         receivedCount s1 <= receivedCount s2 ->
         sentCount s1 <= sentCount s2 ->
         ((exists s', heartbeat true s2 = Exit 1 s') <->
          receivedCount s2 - receivedCount s1 = 0 /\
          sentCount s2 - sentCount s1 = 0))
  /\ (forall (s1 s1' s2 : State World CobraConfig) state segment,
         t2 s1 = HeartbeatLoop state -> stop s1 = false ->
         heartbeat true s1 = Go s1' ->
         ~ In (Work Heartbeat) segment ->
         sleep_for bot a segment s1' = Go s2 ->
         let received := admitted bot a segment s1' in
         let sent :=
           accepted (skipn (List.length (sinkCalls s1)) (sinkCalls s2)) in
         uint64 (receivedCount s1) -> uint64 (sentCount s1) ->
         receivedCount s1 + Z.of_nat received < UINT64_MOD ->
         sentCount s1 + Z.of_nat sent < UINT64_MOD ->
         receivedCount s2 = receivedCount s1 + Z.of_nat received /\
         sentCount s2 = sentCount s1 + Z.of_nat sent /\
         ((exists s', heartbeat true s2 = Exit 1 s') <->
          received = 0%nat /\ sent = 0%nat))
  /\ (forall (config : CobraConfig) (world : World) sched,
         (run bot config a world sched = Exited 1 <->
          exists k,
            (k < List.length (ticks sched))%nat /\
            (runtime a = -1 \/ Z.of_nat k < runtime a) /\
            (forall j, (1 <= j <= k)%nat ->
                       quiet (after_ticks bot a (ticks sched) j
                                          (start config a world))) /\
            stalled_look bot a (List.concat (firstn (S k) (ticks sched)))
                         (start config a world)) /\
         (forall code,
             run bot config a world sched = Exited code ->
             code = 1 /\ enableHeartbeat a = true)).
Proof.
  assert (Tick : forall (s : State World CobraConfig) state,
             t2 s = HeartbeatLoop state -> stop s = false ->
             ((exists s', heartbeat true s = Exit 1 s') <->
              snapshot (receivedCount s) (sentCount s) = state) /\
             (snapshot (receivedCount s) (sentCount s) <> state ->
              heartbeat true s
              = Go (set_t2 (HeartbeatLoop
                              (snapshot (receivedCount s) (sentCount s))) s))).
  { intros s state Ht Hs. unfold heartbeat. rewrite Ht, Hs.
    destruct (String.eqb_spec (snapshot (receivedCount s) (sentCount s)) state)
      as [E|E].
    - split; [|contradiction]. split; auto. intros _. eexists; reflexivity.
    - split; [|reflexivity]. split; [|contradiction].
      intros (s' & H). discriminate. }
  assert (Same : forall r1 s1 r2 s2,
             uint64 r1 -> uint64 s1 -> uint64 r2 -> uint64 s2 ->
             (snapshot r2 s2 = snapshot r1 s1 <-> r2 - r1 = 0 /\ s2 - s1 = 0)).
  { unfold uint64. intros r1 s1 r2 s2 H1 H2 H3 H4. split.
    - intros H. apply snapshot_inj in H; lia.
    - intros [Hr Hs]. f_equal; lia. }
  assert (Next : forall (s1 s1' s2 : State World CobraConfig) state segment,
             t2 s1 = HeartbeatLoop state -> stop s1 = false ->
             heartbeat true s1 = Go s1' ->
             ~ In (Work Heartbeat) segment ->
             sleep_for bot a segment s1' = Go s2 ->
             s1' = set_t2 (HeartbeatLoop
                             (snapshot (receivedCount s1) (sentCount s1))) s1
             /\ t2 s2 = HeartbeatLoop
                          (snapshot (receivedCount s1) (sentCount s1))
             /\ stop s2 = false).
  { intros s1 s1' s2 state segment Ht Hs Hb Hseg Hrun.
    assert (E1 : s1' = set_t2 (HeartbeatLoop
                                 (snapshot (receivedCount s1) (sentCount s1)))
                              s1).
    { unfold heartbeat in Hb. rewrite Ht, Hs in Hb.
      destruct (String.eqb _ state); [discriminate|]. now injection Hb. }
    split; [exact E1|]. split.
    - assert (Ht2 : t2 s2 = t2 s1').
      { apply (sleep_for_invariant bot a (fun x => t2 x = t2 s1') segment)
          with (s := s1'); auto.
        intros act x x' Hin Hx Hx2. rewrite <- Hx2.
        eapply step_heartbeat_local; [|exact Hx].
        intros ->. contradiction. }
      rewrite Ht2, E1. reflexivity.
    - rewrite (sleep_for_stop bot a _ _ Hrun), E1. exact Hs. }
  split; [|split; [|split; [|split; [|split; [|split; [|split; [|split]]]]]]].
  - intros s Ht. unfold heartbeat. rewrite Ht. simpl. auto.
  - intros config world sched code Hd. unfold run.
    destruct (execute bot config a world sched) as [| c s |] eqn:E;
      try discriminate.
    destruct (execute_terminated _ _ _ _ _ E) as (_ & He). congruence.
  - intros s Ht. unfold heartbeat. rewrite Ht. reflexivity.
  - intros s Ht Hs. apply (Tick s "na" Ht Hs). apply snapshot_not_na.
  - exact Tick.
  - intros r1 s1 r2 s2 H1 H2 H3 H4 _ _. now apply Same.
  - intros s1 s1' s2 state segment Ht Hs Hb Hseg Hrun U1 U2 U3 U4 _ _.
    destruct (Next s1 s1' s2 state segment Ht Hs Hb Hseg Hrun)
      as (_ & Ht2 & Hs2).
    rewrite (proj1 (Tick s2 _ Ht2 Hs2)). now apply Same.
  - intros s1 s1' s2 state segment Ht Hs Hb Hseg Hrun received sent
           U1 U2 W1 W2.
    destruct (Next s1 s1' s2 state segment Ht Hs Hb Hseg Hrun)
      as (E1 & Ht2 & Hs2).
    pose proof (sleep_for_admitted bot a segment s1' Hrun) as R.
    destruct (sleep_for_new_calls bot a segment s1' Hrun) as (new & C1 & C2).
    rewrite E1 in R, C1, C2. simpl in R, C1, C2. rewrite <- E1 in R.
    fold received in R.
    assert (Hsent : sent = accepted new).
    { unfold sent. rewrite C1, skipn_app, skipn_all, Nat.sub_diag.
      reflexivity. }
    rewrite <- Hsent in C2.
    rewrite iter_incr64 in R by exact U1.
    rewrite iter_incr64 in C2 by exact U2.
    unfold uint64 in U1, U2.
    rewrite Z.mod_small in R by lia. rewrite Z.mod_small in C2 by lia.
    split; [exact R|]. split; [exact C2|].
    rewrite (proj1 (Tick s2 _ Ht2 Hs2)).
    rewrite Same by (unfold uint64; lia). lia.
  - intros config world sched. split.
    + split.
      * intros H. unfold run in H.
        destruct (execute bot config a world sched) as [|c s|] eqn:E;
          try discriminate.
        injection H as ->. unfold execute in E.
        destruct (supervise bot a (ticks sched) (start config a world))
          as [x m|c x|x m] eqn:Es.
        -- destruct (shutdown_spec bot a (joining sched) x) as (s' & Ex & _).
           rewrite Ex in E. discriminate.
        -- injection E as -> ->. apply supervise_exit in Es.
           destruct Es as (k & Hk & Hb & Hq & He).
           exists k. repeat split; auto.
           apply sleep_for_stalled. exists s. exact He.
        -- discriminate.
      * intros (k & Hk & Hb & Hq & Hst).
        apply sleep_for_stalled in Hst. destruct Hst as (s' & He).
        assert (Es : supervise bot a (ticks sched) (start config a world)
                     = Killed 1 s').
        { apply supervise_exit. exists k. repeat split; auto. }
        unfold run, execute. now rewrite Es.
    + intros code H. unfold run in H.
      destruct (execute bot config a world sched) as [|c s|] eqn:E;
        try discriminate.
      injection H as ->. exact (execute_terminated _ _ _ _ _ E).
Qed.

(** An instance of C5: the run of [two_silent_minutes], from the state
    [run] starts in.  The heartbeat enters its loop and takes its first
    look in the first second, two messages are received and sent, the
    second look after one minute finds the counters moved, the third
    look after two minutes finds them as they were, and the run ends in
    [exit(1)] during its 120th tick. *)
Lemma heartbeat_watchdog_witness :
  run (setOnBotMessageCallback sink_accepts (newCobraBot unit)) tt
      (bounded_args 180 true) tt two_silent_minutes
  = Exited 1.
Proof.
  set (bot := setOnBotMessageCallback sink_accepts (newCobraBot unit)).
  set (a := bounded_args 180 true).
  apply (proj1 (proj2 (proj2 (proj2 (proj2 (proj2 (proj2 (proj2 (proj2
           (@heartbeat_watchdog unit unit bot a))))))))
           tt tt two_silent_minutes)).
  exists 119%nat.
  assert (Hall : forallb
                   (fun j =>
                      match after_ticks bot a (ticks two_silent_minutes) j
                                        (start tt a tt) with
                      | Go s => negb (fatalCobraError s)
                      | Exit _ _ => false
                      end)
                   (seq 1 119) = true) by (vm_compute; reflexivity).
  split; [vm_compute; lia|].
  split; [right; vm_compute; reflexivity|].
  split.
  - intros j Hj.
    assert (Hin : In j (seq 1 119)) by (apply in_seq; lia).
    pose proof (proj1 (forallb_forall _ _) Hall j Hin) as Hq.
    cbv beta in Hq. unfold quiet.
    destruct (after_ticks bot a (ticks two_silent_minutes) j (start tt a tt))
      as [s|code s]; [|discriminate Hq].
    exists s. split; [reflexivity|].
    destruct (fatalCobraError s); [discriminate Hq|reflexivity].
  - exists (removelast
              (List.concat (firstn 120 (ticks two_silent_minutes)))),
           [],
           (reached
              (sleep_for bot a
                 (removelast
                    (List.concat (firstn 120 (ticks two_silent_minutes))))
                 (start tt a tt))),
           (snapshot 2 2).
    split; [vm_compute; reflexivity|].
    split; [vm_compute; reflexivity|].
    split; [vm_compute; reflexivity|].
    split; vm_compute; reflexivity.
Defined.

(** C6 (amended): as long as the heartbeat has not ended the process,
    with [runtime = -1] the supervision loop goes through every tick a
    schedule offers and is still running at its end; otherwise it runs
    [runtime] ticks (none if [runtime] is not positive); in both modes it
    is left at the first tick after which [fatalCobraError] is set.
    Nothing but the enabled heartbeat, with exit code 1, cuts the loop
    short.  Once the loop is left, [run] returns, with the connection
    closed, [stop] set and the three workers past their loops; and a
    worker that finds [stop] set at its next test leaves its loop.
    ([quiet] and [alarmed] say that the process is alive and what
    [fatalCobraError] is.) *)
Theorem supervision_and_shutdown (World CobraConfig : Type)
        (bot : CobraBot World) (a : RunArgs) :
  (forall segments (s : State World CobraConfig),
      runtime a = -1 ->
      (forall k, (1 <= k <= List.length segments)%nat ->
                 quiet (after_ticks bot a segments k s)) ->
      exists s',
        supervise bot a segments s = Ongoing s' (List.length segments))
  /\ (forall segments (s : State World CobraConfig),
         runtime a <> -1 ->
         runtime a <= Z.of_nat (List.length segments) ->
         (forall k, (1 <= k)%nat -> Z.of_nat k <= runtime a ->
                    quiet (after_ticks bot a segments k s)) ->
         exists s' n,
           supervise bot a segments s = Ended s' n /\
           Z.of_nat n = Z.max 0 (runtime a) /\
           after_ticks bot a segments n s = Go s')
  /\ (forall segments (s : State World CobraConfig) k,
         runtime a = -1 \/ Z.of_nat k < runtime a ->
         (k < List.length segments)%nat ->
         (forall j, (1 <= j <= k)%nat ->
                    quiet (after_ticks bot a segments j s)) ->
         alarmed (after_ticks bot a segments (S k) s) ->
         exists s',
           supervise bot a segments s = Ended s' (S k) /\
           fatalCobraError s' = true)
  /\ (forall segments (s s' : State World CobraConfig) code,
         heartbeat_armed a s ->
         supervise bot a segments s = Killed code s' ->
         code = 1 /\ enableHeartbeat a = true)
  /\ (forall (config : CobraConfig) (world : World) sched s n,
         supervise bot a (ticks sched) (start config a world) = Ended s n ->
         exists s',
           execute bot config a world sched = Completed s' n /\
           connected (conn s') = false /\ stop s' = true /\
           t1 s' = TimerDone /\ t2 s' = HeartbeatDone /\
           t3 s' = SenderDone)
  /\ (forall s : State World CobraConfig,
         stop s = true ->
         (t1 s = TimerLoop -> t1 (timer s) = TimerDone)
         /\ (forall state, t2 s = HeartbeatLoop state ->
               exists s', heartbeat (enableHeartbeat a) s = Go s' /\
                          t2 s' = HeartbeatDone)
         /\ (t3 s = SenderPop ->
             t3 (sender bot (verbose a) s) = SenderDone)
         /\ (forall msg, t3 s = SenderSend msg ->
               t3 (sender bot (verbose a) s) = SenderDone)).
Proof.
  repeat apply conj.
  - intros segments s Hr Hq. unfold supervise. rewrite Hr. simpl.
    destruct (supervise_forever_quiet bot a segments 0 s Hq) as (s' & E & _).
    now exists s'.
  - intros segments s Hr Hl Hq. unfold supervise.
    destruct (Z.eqb_spec (runtime a) (-1)) as [|_]; [contradiction|].
    destruct (supervise_for_quiet bot a segments 0 0 s) as (s' & E & A).
    + lia.
    + intros k Hk1 Hk2. apply Hq; lia.
    + exists s', (Z.to_nat (runtime a - 0)). repeat split; auto. lia.
  - intros segments s k Hr Hk Hq Ha. unfold supervise.
    destruct (Z.eqb_spec (runtime a) (-1)) as [E|E].
    + destruct (supervise_forever_alarm bot a segments 0 s Hk Hq Ha)
        as (s' & E' & _ & F).
      now exists s'.
    + assert (Hi : 0 + Z.of_nat k < runtime a)
        by (destruct Hr; [contradiction|lia]).
      destruct (supervise_for_alarm bot a segments 0 0 s Hi Hk Hq Ha)
        as (s' & E' & _ & F).
      now exists s'.
  - intros segments s s' code Ha E.
    apply (supervise_killed bot a _ _ E Ha).
  - intros config world sched s n E.
    destruct (execute_ended bot config a world sched E)
      as (s' & E' & _ & Hs & Hc & F1 & F2 & F3 & _).
    exists s'. unfold finished in *.
    destruct (t1 s'), (t2 s'), (t3 s'); try discriminate.
    repeat split; auto.
  - intros s Hs. apply (work_observes_stop bot a s Hs).
Qed.

(** An instance of C6: a run of three seconds over three idle ticks. *)
Lemma supervision_and_shutdown_witness :
  exists s' n,
    supervise (newCobraBot unit) (bounded_args 3 false)
              [[Work Timer]; [Work Timer]; [Work Timer]]
              (start tt (bounded_args 3 false) tt) = Ended s' n /\
    Z.of_nat n = Z.max 0 3.
Proof.
  destruct (proj1 (proj2 (@supervision_and_shutdown unit unit
                            (newCobraBot unit) (bounded_args 3 false)))
              [[Work Timer]; [Work Timer]; [Work Timer]]
              (start tt (bounded_args 3 false) tt))
    as (s' & n & E & N & _).
  - discriminate.
  - simpl. lia.
  - intros k Hk1 Hk2. simpl in Hk2.
    destruct k as [|[|[|[|k]]]]; try lia;
      (eexists; split; [vm_compute; reflexivity|reflexivity]).
  - exists s', n. split; assumption.
Defined.

(** C6 as stated fails when the enabled heartbeat ends the process: in a
    run of 180 seconds with two silent minutes the loop has gone through
    119 ticks without any fatal error, the heartbeat ends the process
    during the next one, and the loop neither reaches 180 ticks nor is
    left on a fatal error. *)
Lemma heartbeat_cuts_supervision_short :
  let bot := newCobraBot unit in
  let a := bounded_args 180 true in
  let segments := ticks two_silent_minutes in
  Z.of_nat (List.length segments) = runtime a
  /\ quiet (after_ticks bot a segments 119 (start tt a tt))
  /\ (exists s, after_ticks bot a segments 120 (start tt a tt) = Exit 1 s /\
                fatalCobraError s = false)
  /\ (exists s, supervise bot a segments (start tt a tt) = Killed 1 s)
  /\ (forall s n, supervise bot a segments (start tt a tt) <> Ended s n).
Proof.
  intros bot a segments. split; [reflexivity|]. split; [|split; [|split]].
  - eexists. split; [vm_compute; reflexivity|reflexivity].
  - eexists. split; [vm_compute; reflexivity|reflexivity].
  - eexists. vm_compute. reflexivity.
  - intros s n. vm_compute. discriminate.
Qed.

(** C7: when the sink returns [false] for a dequeued message, the sender
    logs the send error and leaves [sentCount], [stop] and
    [fatalCobraError] as they are.  Whether the loop goes on depends on
    [stop] alone, for a failure as for a success: with [stop] clear the
    sender goes back to [pop()], and its next step takes the next message
    of the queue. *)
Theorem sink_failure_is_isolated (World CobraConfig : Type)
        (bot : CobraBot World) (a : RunArgs) (s : State World CobraConfig)
        (msg : Json) callback (thr : bool) (w : World) :
  _onBotMessageCallback bot = Some callback ->
  t3 s = SenderSend msg ->
  callback msg (verbose a) (throttled s) (sink s) = (false, thr, w) ->
  let s' := sender bot (verbose a) s in
  work bot a Sender s = Go s'
  /\ log s' = log s ++ mkLog error "cobra bot: error sending" []
                      :: (if stop s
                          then [mkLog info "sender thread done" []]
                          else [])
  /\ sentCount s' = sentCount s
  /\ stop s' = stop s
  /\ fatalCobraError s' = fatalCobraError s
  /\ t3 s' = (if stop s then SenderDone else SenderPop)
  /\ (forall other : CobraBot World,
         t3 (sender other (verbose a) s)
         = (if stop s then SenderDone else SenderPop))
  /\ (stop s = false ->
      forall next rest,
        QueueManager.items (queueManager s) = next :: rest ->
        isNull next = false ->
        t3 (sender bot (verbose a) s') = SenderSend next).
Proof.
  intros Hcb Ht Hr s'.
  assert (Any : forall other : CobraBot World,
             t3 (sender other (verbose a) s)
             = (if stop s then SenderDone else SenderPop)).
  { intros other. unfold sender. rewrite Ht.
    destruct (dispatch_frame other (verbose a) msg s) as (E & _).
    rewrite E. destruct (stop s); reflexivity. }
  assert (D : dispatch bot (verbose a) msg s
              = spdlog error "cobra bot: error sending" []
                       (set_sinkCalls (sinkCalls s ++ [(msg, false)])
                                      (set_sink w (set_throttled thr s)))).
  { unfold dispatch. now rewrite Hcb, Hr. }
  assert (S : s' = if stop s
                   then sender_done (dispatch bot (verbose a) msg s)
                   else set_t3 SenderPop (dispatch bot (verbose a) msg s)).
  { subst s'. unfold sender. rewrite Ht.
    destruct (dispatch_frame bot (verbose a) msg s) as (E & _).
    now rewrite E. }
  split; [reflexivity|].
  rewrite S, D. clear S D.
  destruct (stop s) eqn:Hs; simpl.
  - repeat split; auto.
    + now rewrite <- app_assoc.
    + discriminate.
  - repeat split; auto.
    intros _ next rest Hq Hn. unfold sender. simpl.
    unfold QueueManager.pop. rewrite Hq. simpl.
    now rewrite Hs, Hn.
Qed.

(** An instance of C7: two messages queued, the sink rejects the first. *)
Lemma sink_failure_is_isolated_witness :
  let bot := setOnBotMessageCallback sink_rejects (newCobraBot unit) in
  let a := bounded_args 3 false in
  let s := set_t3 (SenderSend (JInt 1))
             (set_queueManager (QueueManager.mk 10 [JInt 2]) (start tt a tt)) in
  sentCount (sender bot (verbose a) s) = sentCount s /\
  t3 (sender bot (verbose a) (sender bot (verbose a) s)) = SenderSend (JInt 2).
Proof.
  intros bot a s.
  pose proof (@sink_failure_is_isolated unit unit bot a s (JInt 1)
                (fun _ _ thr w => (false, thr, w)) false tt
                eq_refl eq_refl eq_refl) as H.
  split.
  - apply H.
  - apply (proj2 (proj2 (proj2 (proj2 (proj2 (proj2 (proj2 H))))))
             eq_refl (JInt 2) []);
      reflexivity.
Defined.

(** C8: on Closed, Error, Pong and Published the event callback writes
    one line to the log and nothing else: the counters, the flags, the
    queue, the connection, the threads and the sink are as before. *)
Theorem transient_events_only_log (World CobraConfig : Type)
        (a : RunArgs) (event : CobraEvent) (s : State World CobraConfig) :
  In (type event) [Closed; Error; Pong; Published] ->
  exists line,
    eventCallback a event s = set_log (log s ++ [line]) s
    /\ sentCount (eventCallback a event s) = sentCount s
    /\ receivedCount (eventCallback a event s) = receivedCount s
    /\ stop (eventCallback a event s) = stop s
    /\ throttled (eventCallback a event s) = throttled s
    /\ fatalCobraError (eventCallback a event s) = fatalCobraError s
    /\ queueManager (eventCallback a event s) = queueManager s.
Proof.
  intros Hin. unfold eventCallback. simpl in Hin.
  destruct Hin as [<-|[<-|[<-|[<-|[]]]]];
    (eexists; split; [unfold spdlog; reflexivity|repeat split]).
Qed.

(** An instance of C8: a Closed event in the state [run] starts from. *)
Lemma transient_events_only_log_witness :
  exists line,
    eventCallback (bounded_args 3 false) (plain Closed)
                  (start tt (bounded_args 3 false) tt)
    = set_log (log (start tt (bounded_args 3 false) tt) ++ [line])
              (start tt (bounded_args 3 false) tt).
Proof.
  destruct (@transient_events_only_log unit unit (bounded_args 3 false)
              (plain Closed) (start tt (bounded_args 3 false) tt)
              (or_introl eq_refl)) as (line & H & _).
  exists line. exact H.
Defined.







(* ================================================================== *)
(** * Further properties *)

(* ------------------------------------------------------------------ *)
(** ** Where the supervision loop ends *)

Section LoopEnds.

Context {World CobraConfig : Type}.
Variable bot : CobraBot World.
Variable a : RunArgs.

Let St := State World CobraConfig.

(** The unbounded loop is left only with [fatalCobraError] set, after one
    sleep at least, in the state the executed ticks lead to. *)
Lemma supervise_forever_ended (segments : list (list Action)) (n0 m : nat)
      (s s' : St) :
  supervise_forever bot a segments n0 s = Ended s' m ->
  exists k, m = (n0 + S k)%nat /\ (S k <= List.length segments)%nat /\
            fatalCobraError s' = true /\
            after_ticks bot a segments (S k) s = Go s'.
Proof.
  revert n0 s. induction segments as [|segment rest IH]; intros n0 s H;
    simpl in H; [discriminate|].
  destruct (sleep_for bot a segment s) as [s1|] eqn:E; [|discriminate].
  destruct (fatalCobraError s1) eqn:F.
  - injection H as <- <-. exists 0%nat. repeat split; auto.
    + lia.
    + simpl. lia.
    + now rewrite after_ticks_one.
  - destruct (IH _ _ H) as (k & Hm & Hk & Hf & Ha).
    exists (S k). repeat split; auto.
    + lia.
    + simpl. lia.
    + rewrite after_ticks_cons, E. exact Ha.
Qed.

(** The bounded loop is left after at most [runtime] sleeps, and before
    that only with [fatalCobraError] set. *)
Lemma supervise_for_ended (segments : list (list Action)) (i : Z)
      (n0 m : nat) (s s' : St) :
  supervise_for bot a i segments n0 s = Ended s' m ->
  exists k, m = (n0 + k)%nat /\ (k <= List.length segments)%nat /\
            i + Z.of_nat k <= Z.max i (runtime a) /\
            (i + Z.of_nat k < runtime a ->
             fatalCobraError s' = true /\ (1 <= k)%nat) /\
            after_ticks bot a segments k s = Go s'.
Proof.
  revert i n0 s. induction segments as [|segment rest IH]; intros i n0 s H;
    simpl in H; destruct (Z.ltb_spec i (runtime a)) as [Hi|Hi];
    try discriminate.
  - injection H as <- <-. exists 0%nat. repeat split; auto; lia.
  - destruct (sleep_for bot a segment s) as [s1|] eqn:E; [|discriminate].
    destruct (fatalCobraError s1) eqn:F.
    + injection H as <- <-. exists 1%nat. repeat split; auto.
      * lia.
      * simpl. lia.
      * lia.
      * now rewrite after_ticks_one.
    + destruct (IH _ _ _ H) as (k & Hm & Hk & Hb & Hf & Ha).
      exists (S k). repeat split; auto.
      * lia.
      * simpl. lia.
      * lia.
      * apply Hf. lia.
      * lia.
      * rewrite after_ticks_cons, E. exact Ha.
  - injection H as <- <-. exists 0%nat. repeat split; auto; lia.
Qed.

(** A loop still running at the end of the schedule has slept through
    all of it. *)
Lemma supervise_for_ongoing (segments : list (list Action)) (i : Z)
      (n0 m : nat) (s s' : St) :
  supervise_for bot a i segments n0 s = Ongoing s' m ->
  m = (n0 + List.length segments)%nat /\
  i + Z.of_nat (List.length segments) < runtime a /\
  after_ticks bot a segments (List.length segments) s = Go s'.
Proof.
  revert i n0 s. induction segments as [|segment rest IH]; intros i n0 s H;
    simpl in H; destruct (Z.ltb_spec i (runtime a)) as [Hi|Hi];
    try discriminate.
  - injection H as <- <-. repeat split; auto; simpl; lia.
  - destruct (sleep_for bot a segment s) as [s1|] eqn:E; [|discriminate].
    destruct (fatalCobraError s1) eqn:F; [discriminate|].
    destruct (IH _ _ _ H) as (Hm & Hb & Ha).
    repeat split; auto.
    + simpl. lia.
    + simpl List.length. lia.
    + simpl List.length. rewrite after_ticks_cons, E. exact Ha.
Qed.

End LoopEnds.

(** X1: whenever [run] returns, it returns -1 if [fatalCobraError] is
    set and otherwise the number of sink calls that returned [true],
    reduced to 64 bits and read as a signed number; below 2^63 accepted
    calls that is the number itself.  The value always fits 64 signed
    bits. *)
Theorem run_returns_accepted_count (World CobraConfig : Type)
        (bot : CobraBot World) (config : CobraConfig) (a : RunArgs)
        (world : World) (sched : Schedule) (s : State World CobraConfig)
        (n : nat) :
  execute bot config a world sched = Completed s n ->
  run bot config a world sched
  = Returned (if fatalCobraError s then -1
              else to_int64 (Z.of_nat (accepted (sinkCalls s))
                             mod UINT64_MOD))
  /\ (fatalCobraError s = false ->
      Z.of_nat (accepted (sinkCalls s)) < 2 ^ 63 ->
      run bot config a world sched
      = Returned (Z.of_nat (accepted (sinkCalls s))))
  /\ (forall v, run bot config a world sched = Returned v ->
                - 2 ^ 63 <= v < 2 ^ 63).
Proof.
  intros E. pose proof (execute_counted _ _ _ _ _ E) as C.
  unfold counted in C.
  assert (R : run bot config a world sched
              = Returned (if fatalCobraError s then -1
                          else to_int64 (Z.of_nat (accepted (sinkCalls s))
                                         mod UINT64_MOD))).
  { unfold run. rewrite E. unfold result. now rewrite C. }
  split; [exact R|split].
  - intros F HN. rewrite R, F.
    rewrite Z.mod_small by (unfold UINT64_MOD; lia).
    now rewrite to_int64_small by lia.
  - intros v Hv. rewrite R in Hv. injection Hv as <-.
    destruct (fatalCobraError s); [lia|].
    pose proof (Z.mod_pos_bound (Z.of_nat (accepted (sinkCalls s)))
                  UINT64_MOD ltac:(unfold UINT64_MOD; lia)) as B.
    unfold to_int64, UINT64_MOD in *.
    destruct (Z.ltb_spec (Z.of_nat (accepted (sinkCalls s)) mod 2 ^ 64)
                         (2 ^ 63)); lia.
Qed.

(** An instance of X1: two of three messages sent before the run ends. *)
Lemma run_returns_accepted_count_witness :
  let bot := setOnBotMessageCallback sink_accepts (newCobraBot unit) in
  let sched :=
    mkSchedule
      [handshake ++ [Inbound (JInt 1) "p1"; Inbound (JInt 2) "p2";
                     Inbound (JInt 3) "p3";
                     Work Sender; Work Sender; Work Sender; Work Sender]]
      [] in
  run bot tt (bounded_args 1 false) tt sched = Returned 2.
Proof.
  intros bot sched.
  assert (E : execute bot tt (bounded_args 1 false) tt sched
              = Completed
                  (final (execute bot tt (bounded_args 1 false) tt sched))
                  1%nat)
    by (vm_compute; reflexivity).
  pose proof (proj1 (proj2 (run_returns_accepted_count _ _ _ _ _ E))) as H.
  assert (F : fatalCobraError
                (final (execute bot tt (bounded_args 1 false) tt sched))
              = false) by (vm_compute; reflexivity).
  assert (N : Z.of_nat
                (accepted
                   (sinkCalls
                      (final (execute bot tt (bounded_args 1 false) tt
                                      sched)))) < 2 ^ 63)
    by (vm_compute; reflexivity).
  specialize (H F N). vm_compute in H |- *. exact H.
Defined.

(** X2: with [runtime = -1] the only way out of supervision is a fatal
    error: a run that returns has slept once at least, has
    [fatalCobraError] set, and returns -1. *)
Theorem unbounded_run_returns_only_on_fatal (World CobraConfig : Type)
        (bot : CobraBot World) (config : CobraConfig) (a : RunArgs)
        (world : World) (sched : Schedule) :
  runtime a = -1 ->
  (forall s n,
      execute bot config a world sched = Completed s n ->
      fatalCobraError s = true /\ (1 <= n <= List.length (ticks sched))%nat)
  /\ (forall v, run bot config a world sched = Returned v -> v = -1).
Proof.
  intros Hr.
  assert (C : forall s n,
             execute bot config a world sched = Completed s n ->
             fatalCobraError s = true /\
             (1 <= n <= List.length (ticks sched))%nat).
  { intros s n E.
    destruct (execute_completed _ _ _ _ _ E) as (x & Ex & _).
    destruct (execute_ended _ _ _ _ _ Ex)
      as (s' & E' & _ & _ & _ & _ & _ & _ & F).
    rewrite E in E'. injection E' as <-.
    unfold supervise in Ex. rewrite Hr in Ex. simpl in Ex.
    destruct (supervise_forever_ended _ _ _ _ _ Ex) as (k & -> & Hk & Hf & _).
    rewrite F, Hf. split; [reflexivity|lia]. }
  split; [exact C|].
  intros v. unfold run.
  destruct (execute bot config a world sched) as [s n| |] eqn:E;
    try discriminate.
  intros H. injection H as <-. unfold result.
  now rewrite (proj1 (C s n eq_refl)).
Qed.

(** An instance of X2: an unbounded run, a subscription error in the
    second tick. *)
Lemma unbounded_run_returns_only_on_fatal_witness :
  let sched :=
    mkSchedule [handshake; [Deliver (plain SubscriptionError)]; []] [] in
  let s := final (execute (newCobraBot unit) tt (bounded_args (-1) false)
                          tt sched) in
  fatalCobraError s = true /\ (1 <= 2 <= 3)%nat.
Proof.
  intros sched s.
  assert (E : execute (newCobraBot unit) tt (bounded_args (-1) false) tt
                      sched = Completed s 2%nat)
    by (vm_compute; reflexivity).
  exact (proj1 (@unbounded_run_returns_only_on_fatal unit unit
                  (newCobraBot unit) tt (bounded_args (-1) false) tt sched
                  eq_refl) s 2%nat E).
Defined.

(** X3: a bounded supervision loop that has been left took at most
    [runtime] ticks (none for [runtime <= 0]), no more than the schedule
    has, and ended in the state these ticks lead to; if it took fewer
    than [runtime], [fatalCobraError] is set and one tick at least was
    taken.  A bounded loop still running at the end of the schedule has
    taken every tick of it, and they are fewer than [runtime]. *)
Theorem bounded_supervision_tick_bound (World CobraConfig : Type)
        (bot : CobraBot World) (a : RunArgs)
        (segments : list (list Action)) (s : State World CobraConfig) :
  runtime a <> -1 ->
  (forall s' n,
      supervise bot a segments s = Ended s' n ->
      Z.of_nat n <= Z.max 0 (runtime a) /\
      (n <= List.length segments)%nat /\
      after_ticks bot a segments n s = Go s' /\
      (Z.of_nat n < runtime a ->
       fatalCobraError s' = true /\ (1 <= n)%nat))
  /\ (forall s' n,
         supervise bot a segments s = Ongoing s' n ->
         n = List.length segments /\ Z.of_nat n < runtime a /\
         after_ticks bot a segments n s = Go s').
Proof.
  intros Hr. unfold supervise.
  destruct (Z.eqb_spec (runtime a) (-1)) as [|_]; [contradiction|].
  split.
  - intros s' n E.
    destruct (supervise_for_ended _ _ _ _ _ _ E) as (k & -> & Hk & Hb & Hf & Ha).
    simpl. split; [lia|]. split; [exact Hk|]. split; [exact Ha|].
    intros Hlt. apply Hf. lia.
  - intros s' n E.
    destruct (supervise_for_ongoing _ _ _ _ _ _ E) as (-> & Hb & Ha).
    simpl. repeat split; auto.
Qed.

(** An instance of X3: a run of five seconds cut short in its second
    tick. *)
Lemma bounded_supervision_tick_bound_witness :
  match supervise (newCobraBot unit) (bounded_args 5 false)
                  [handshake; [Deliver (plain AuthenticationError)];
                   []; []; []]
                  (start tt (bounded_args 5 false) tt) with
  | Ended s' n => Z.of_nat n <= Z.max 0 5 /\ (n <= 5)%nat
  | _ => False
  end.
Proof.
  destruct (supervise (newCobraBot unit) (bounded_args 5 false)
                      [handshake; [Deliver (plain AuthenticationError)];
                       []; []; []]
                      (start tt (bounded_args 5 false) tt))
    as [s' n|code s'|s' n] eqn:E.
  - destruct (proj1 (@bounded_supervision_tick_bound unit unit
                       (newCobraBot unit) (bounded_args 5 false)
                       [handshake; [Deliver (plain AuthenticationError)];
                        []; []; []]
                       (start tt (bounded_args 5 false) tt)
                       ltac:(discriminate)) s' n E) as (H1 & H2 & _).
    split; [exact H1|exact H2].
  - vm_compute in E. discriminate E.
  - vm_compute in E. discriminate E.
Defined.


(* ------------------------------------------------------------------ *)
(** ** The observers *)

(** X4: the progress timer and the heartbeat only observe: whatever steps
    they take, and whether or not the heartbeat ends the process, the
    counters, the flags, the queue, the connection, the sink and the
    sender are as before; only the log and the two threads' own states
    change. *)
Theorem observers_are_read_only (World CobraConfig : Type)
        (bot : CobraBot World) (a : RunArgs) (steps : list Worker)
        (s : State World CobraConfig) :
  (forall w, In w steps -> w = Timer \/ w = Heartbeat) ->
  let s' := reached (sleep_for bot a (map Work steps) s) in
  shared s' = shared s /\ conn s' = conn s /\ sink s' = sink s /\
  sinkCalls s' = sinkCalls s /\ t3 s' = t3 s.
Proof.
  revert s. induction steps as [|w steps IH]; intros s Hw; simpl.
  - repeat split.
  - assert (F : let x := reached (work bot a w s) in
                shared x = shared s /\ conn x = conn s /\ sink x = sink s /\
                sinkCalls x = sinkCalls s /\ t3 x = t3 s).
    { destruct (Hw w (or_introl eq_refl)) as [->| ->]; simpl.
      - unfold timer, shared.
        destruct (t1 s); [destruct (stop s) eqn:Hs|]; simpl;
          rewrite ?Hs; repeat split.
      - unfold heartbeat, shared.
        destruct (t2 s) as [ | state | ];
          [destruct (negb (enableHeartbeat a))
          |destruct (stop s) eqn:Hs; [|destruct (String.eqb _ state)]
          |]; simpl; rewrite ?Hs; repeat split. }
    destruct (work bot a w s) as [s1|code s1]; simpl in *.
    + destruct (IH s1) as (A1 & A2 & A3 & A4 & A5).
      { intros w0 Hin. apply Hw. now right. }
      destruct F as (B1 & B2 & B3 & B4 & B5).
      repeat split; etransitivity; eauto.
    + exact F.
Qed.

(** An instance of X4: four observer steps in the state [run] starts
    from. *)
Lemma observers_are_read_only_witness :
  shared (reached (sleep_for (newCobraBot unit) (bounded_args 3 true)
                             (map Work [Timer; Heartbeat; Heartbeat; Timer])
                             (start tt (bounded_args 3 true) tt)))
  = shared (start tt (bounded_args 3 true) tt).
Proof.
  apply (@observers_are_read_only unit unit (newCobraBot unit)
           (bounded_args 3 true) [Timer; Heartbeat; Heartbeat; Timer]
           (start tt (bounded_args 3 true) tt)).
  intros w Hin. simpl in Hin.
  destruct Hin as [<-|[<-|[<-|[<-|[]]]]]; auto.
Defined.

(* ------------------------------------------------------------------ *)
(** ** Subscriptions *)

Lemma authentications_app (l1 l2 : list Action) :
  authentications (l1 ++ l2) = (authentications l1 + authentications l2)%nat.
Proof.
  induction l1 as [|act l1 IH]; simpl; auto.
  destruct act as [event| |]; auto. destruct (type event); simpl; auto.
Qed.

Lemma step_subscriptions (World CobraConfig : Type) (bot : CobraBot World)
      (a : RunArgs) (act : Action) (s s' : State World CobraConfig) :
  step bot a act s = Go s' ->
  configuration (conn s') = configuration (conn s) /\
  connected (conn s') = connected (conn s) /\
  subscriptions (conn s')
  = subscriptions (conn s)
      ++ repeat (mkSubscription (channel a) (filter a) (position a))
                (authentications [act]).
Proof.
  destruct act as [event | msg pos | w]; simpl; intros H.
  - go_inv. unfold eventCallback.
    destruct (type event) eqn:T; simpl;
      try (rewrite app_nil_r; repeat split; reflexivity).
    + destruct (open_headers_frame (headers event)
                  (spdlog info "Subscriber connected" [] s)) as (_ & E & _).
      simpl in E. rewrite E, app_nil_r. repeat split.
    + repeat split.
  - open_step. go_inv. rewrite app_nil_r.
    break_match; simpl; repeat split.
  - destruct (work_frame bot a w s H) as (_ & _ & E & _).
    rewrite E, app_nil_r. repeat split.
Qed.

(** X5: the event callback asks for one subscription per Authenticated
    event and for none otherwise, always with the channel, filter and
    position [run] was given; nothing else in a segment touches the
    connection. *)
Theorem subscriptions_follow_authentications (World CobraConfig : Type)
        (bot : CobraBot World) (a : RunArgs) (segment : list Action)
        (s s' : State World CobraConfig) :
  sleep_for bot a segment s = Go s' ->
  configuration (conn s') = configuration (conn s) /\
  connected (conn s') = connected (conn s) /\
  subscriptions (conn s')
  = subscriptions (conn s)
      ++ repeat (mkSubscription (channel a) (filter a) (position a))
                (authentications segment).
Proof.
  revert s. induction segment as [|act rest IH]; intros s H; simpl in H.
  - go_inv. simpl. rewrite app_nil_r. repeat split.
  - destruct (step bot a act s) as [s1|] eqn:E; simpl in H; [|discriminate].
    destruct (step_subscriptions bot a act s E) as (A1 & A2 & A3).
    destruct (IH s1 H) as (B1 & B2 & B3).
    repeat split; try congruence.
    rewrite B3, A3, <- app_assoc, <- repeat_app.
    change (act :: rest) with ([act] ++ rest).
    now rewrite authentications_app.
Qed.

(** An instance of X5: the connection is authenticated twice (a
    reconnection) within one segment. *)
Lemma subscriptions_follow_authentications_witness :
  subscriptions
    (conn (reached (sleep_for (newCobraBot unit) (bounded_args 3 false)
                              (handshake ++ [Deliver (plain Closed)]
                                         ++ handshake)
                              (start tt (bounded_args 3 false) tt))))
  = [mkSubscription "channel" "" "$"; mkSubscription "channel" "" "$"].
Proof.
  apply (proj2 (proj2
           (@subscriptions_follow_authentications unit unit
              (newCobraBot unit) (bounded_args 3 false)
              (handshake ++ [Deliver (plain Closed)] ++ handshake)
              (start tt (bounded_args 3 false) tt)
              (reached (sleep_for (newCobraBot unit) (bounded_args 3 false)
                                  (handshake ++ [Deliver (plain Closed)]
                                             ++ handshake)
                                  (start tt (bounded_args 3 false) tt)))
              eq_refl))).
Defined.


(* ------------------------------------------------------------------ *)
(** ** Throttling and the received counter *)

Lemma delivered_app (l1 l2 : list Action) :
  delivered (l1 ++ l2) = delivered l1 ++ delivered l2.
Proof.
  induction l1 as [|act l1 IH]; simpl; auto.
  destruct act; simpl; now rewrite ?IH.
Qed.

Lemma iter_incr64_shift (k : nat) (z : Z) :
  Nat.iter k incr64 (incr64 z) = Nat.iter (S k) incr64 z.
Proof.
  induction k as [|k IH]; [reflexivity|].
  rewrite Nat.iter_succ, IH. reflexivity.
Qed.

Lemma step_between_sender_steps (World CobraConfig : Type)
      (bot : CobraBot World) (a : RunArgs) (act : Action)
      (s s' : State World CobraConfig) :
  act <> Work Sender ->
  step bot a act s = Go s' ->
  throttled s' = throttled s /\ sentCount s' = sentCount s /\
  sinkCalls s' = sinkCalls s /\ sink s' = sink s /\
  receivedCount s'
  = (if throttled s then receivedCount s
     else Nat.iter (List.length (delivered [act])) incr64
                   (receivedCount s)) /\
  (throttled s = true -> queueManager s' = queueManager s).
Proof.
  intros Hne H.
  destruct act as [event | msg pos | [ | | ]]; simpl in H.
  - go_inv.
    destruct (eventCallback_frame a event s)
      as (B1 & B2 & _ & B4 & B5 & _ & _ & _ & B9 & B10).
    simpl. rewrite B1, B2, B4, B9, B10.
    destruct (throttled s); repeat split; auto.
  - go_inv. unfold onMessage.
    destruct (verbose a); simpl; destruct (throttled s) eqn:T; simpl;
      rewrite ?T; repeat split; auto; discriminate.
  - go_inv. unfold timer.
    destruct (t1 s); [destruct (stop s)|]; simpl;
      destruct (throttled s); repeat split; auto.
  - unfold heartbeat in H.
    destruct (t2 s) as [ | state | ];
      [destruct (negb (enableHeartbeat a))
      |destruct (stop s); [|destruct (String.eqb _ state); [discriminate|]]
      |]; destruct (throttled s) eqn:T; go_inv; simpl; rewrite ?T;
      repeat split; auto.
  - contradiction.
Qed.

(** X6: [throttled] is written by the sink alone.  Over a segment in
    which the sender takes no step it keeps its value, no sink call is
    made and [sentCount] stands still; if it is set, every message of the
    segment is dropped ([receivedCount] and the queue are as before); if
    it is clear, [receivedCount] is incremented once per message of the
    segment. *)
Theorem throttle_holds_between_sender_steps (World CobraConfig : Type)
        (bot : CobraBot World) (a : RunArgs) (segment : list Action)
        (s s' : State World CobraConfig) :
  ~ In (Work Sender) segment ->
  sleep_for bot a segment s = Go s' ->
  throttled s' = throttled s /\ sentCount s' = sentCount s /\
  sinkCalls s' = sinkCalls s /\ sink s' = sink s /\
  receivedCount s'
  = (if throttled s then receivedCount s
     else Nat.iter (List.length (delivered segment)) incr64
                   (receivedCount s)) /\
  (throttled s = true -> queueManager s' = queueManager s) /\
  (throttled s = false -> uint64 (receivedCount s) ->
   receivedCount s'
   = (receivedCount s + Z.of_nat (List.length (delivered segment)))
       mod UINT64_MOD).
Proof.
  intros Hno H.
  assert (Main : throttled s' = throttled s /\ sentCount s' = sentCount s /\
                 sinkCalls s' = sinkCalls s /\ sink s' = sink s /\
                 receivedCount s'
                 = (if throttled s then receivedCount s
                    else Nat.iter (List.length (delivered segment)) incr64
                                  (receivedCount s)) /\
                 (throttled s = true -> queueManager s' = queueManager s)).
  { revert s H. induction segment as [|act rest IH]; intros s H; simpl in H.
    - go_inv. simpl. destruct (throttled s'); repeat split.
    - destruct (step bot a act s) as [s1|] eqn:E; simpl in H; [|discriminate].
      destruct (IH (fun Hin => Hno (or_intror Hin)) s1 H)
        as (A1 & A2 & A3 & A4 & A5 & A6).
      assert (Hne : act <> Work Sender).
      { intros ->. apply Hno. now left. }
      destruct (@step_between_sender_steps _ _ bot a act s s1 Hne E)
        as (B1 & B2 & B3 & B4 & B5 & B6).
      rewrite A1, A2, A3, A4, A5, B1, B2, B3, B4, B5.
      change (act :: rest) with ([act] ++ rest).
      rewrite delivered_app, length_app.
      destruct (throttled s) eqn:T.
      + repeat split; auto. intros _. rewrite A6 by congruence. now apply B6.
      + repeat split; auto; [|discriminate].
        rewrite Nat.add_comm. symmetry. apply Nat.iter_add. }
  destruct Main as (M1 & M2 & M3 & M4 & M5 & M6).
  repeat split; auto.
  intros T U. rewrite M5, T. now apply iter_incr64.
Qed.

(** An instance of X6: three messages arrive while [throttled] is set. *)
Lemma throttle_holds_between_sender_steps_witness :
  let s := set_throttled true (start tt (bounded_args 3 false) tt) in
  let s' := reached (sleep_for (newCobraBot unit) (bounded_args 3 false)
                               [Inbound (JInt 1) "p1"; Work Timer;
                                Inbound (JInt 2) "p2"; Inbound (JInt 3) "p3"]
                               s) in
  throttled s' = true /\ receivedCount s' = 0.
Proof.
  intros s s'.
  destruct (@throttle_holds_between_sender_steps unit unit
              (newCobraBot unit) (bounded_args 3 false)
              [Inbound (JInt 1) "p1"; Work Timer;
               Inbound (JInt 2) "p2"; Inbound (JInt 3) "p3"]
              s s') as (T & _ & _ & _ & R & _).
  - simpl. intros [H|[H|[H|[H|[]]]]]; discriminate.
  - reflexivity.
  - split; [exact T|exact R].
Defined.


(* ------------------------------------------------------------------ *)
(** ** What reaches the sink *)

Lemma dispatch_calls (World CobraConfig : Type) (bot : CobraBot World)
      (verbose : bool) (msg : Json) (s : State World CobraConfig) :
  sinkCalls (dispatch bot verbose msg s) = sinkCalls s \/
  exists ok, sinkCalls (dispatch bot verbose msg s)
             = sinkCalls s ++ [(msg, ok)].
Proof.
  unfold dispatch. destruct (_onBotMessageCallback bot) as [callback|].
  - right. destruct (callback msg verbose (throttled s) (sink s))
      as [[ok thr] w].
    exists ok. destruct ok, verbose; reflexivity.
  - now left.
Qed.

Lemma step_no_null (World CobraConfig : Type) (bot : CobraBot World)
      (a : RunArgs) (act : Action) (s s' : State World CobraConfig) :
  step bot a act s = Go s' -> sink_sees_no_null s -> sink_sees_no_null s'.
Proof.
  unfold sink_sees_no_null.
  destruct act as [event | msg pos | [ | | ]]; simpl; intros H (F & T).
  - go_inv.
    destruct (eventCallback_frame a event s)
      as (_ & _ & _ & _ & _ & _ & _ & E3 & _ & E).
    rewrite E, E3. split; assumption.
  - go_inv. unfold onMessage.
    destruct (verbose a); simpl; destruct (throttled s); simpl;
      split; assumption.
  - go_inv. unfold timer.
    destruct (t1 s); [destruct (stop s)|]; simpl; split; assumption.
  - unfold heartbeat in H.
    destruct (t2 s) as [ | state | ];
      [destruct (negb (enableHeartbeat a))
      |destruct (stop s); [|destruct (String.eqb _ state); [discriminate|]]
      |]; go_inv; simpl; split; assumption.
  - go_inv. unfold sender, sender_done.
    destruct (t3 s) as [ | m | ] eqn:E3.
    + destruct (QueueManager.pop (queueManager s)) as [msg q]. simpl.
      destruct (stop s); simpl; [split; [assumption|exact I]|].
      destruct (isNull msg) eqn:N; simpl.
      * rewrite E3. split; [assumption|exact I].
      * split; assumption.
    + assert (F' : Forall (fun call => isNull (fst call) = false)
                          (sinkCalls (dispatch bot (verbose a) m s))).
      { destruct (dispatch_calls bot (verbose a) m s) as [->|(ok & ->)]; auto.
        apply Forall_app. split; auto. }
      destruct (stop (dispatch bot (verbose a) m s)); simpl;
        (split; [assumption|exact I]).
    + rewrite E3. split; [assumption|exact I].
Qed.

(** X7: the sink is never called on a null message: the sender takes a
    null value coming out of the queue for "nothing there" and goes back
    to [pop()].  So in every state a run returns from, and in every state
    supervision has reached when the schedule ends, no recorded sink call
    carries a null message. *)
Theorem sink_never_sees_null (World CobraConfig : Type)
        (bot : CobraBot World) (config : CobraConfig) (a : RunArgs)
        (world : World) (sched : Schedule) :
  (forall q (s : State World CobraConfig),
      t3 s = SenderPop -> stop s = false ->
      QueueManager.pop (queueManager s) = (JNull, q) ->
      sender bot (verbose a) s = set_queueManager q s)
  /\ (forall s n,
         execute bot config a world sched = Completed s n ->
         Forall (fun call => isNull (fst call) = false) (sinkCalls s))
  /\ (forall s n,
         execute bot config a world sched = Unfinished s n ->
         Forall (fun call => isNull (fst call) = false) (sinkCalls s)).
Proof.
  assert (S0 : sink_sees_no_null (start config a world)).
  { split; [constructor|exact I]. }
  split; [|split].
  - intros q s Ht Hs Hq. unfold sender. now rewrite Ht, Hq; simpl; rewrite Hs.
  - intros s n E.
    apply (execute_invariant bot config a world
             (@sink_sees_no_null World CobraConfig) sched) with (n := n);
      auto.
    + intros act x x' _. apply step_no_null.
    + intros w x x'. apply (step_no_null bot a (Work w)).
  - intros s n E. unfold execute in E.
    pose proof (supervise_invariant bot a
                  (@sink_sees_no_null World CobraConfig) (ticks sched)
                  (fun act x x' _ => @step_no_null _ _ bot a act x x')
                  (start config a world) S0) as H.
    destruct (supervise bot a (ticks sched) (start config a world))
      as [x m|c x|x m]; try discriminate.
    + destruct (shutdown bot a (joining sched) x); discriminate.
    + injection E as <- <-. apply H.
Qed.

(* ------------------------------------------------------------------ *)
(** ** What the cleanup still sends *)

Lemma work_calls_due (World CobraConfig : Type) (bot : CobraBot World)
      (a : RunArgs) (w : Worker) (s s' : State World CobraConfig) :
  work bot a w s = Go s' -> stop s = true ->
  stop s' = true /\ (calls_due s' <= calls_due s)%nat.
Proof.
  intros H Hs.
  destruct (work_frame bot a w s H) as (E & _).
  split; [congruence|].
  unfold calls_due. destruct w; simpl in H.
  - go_inv. unfold timer.
    destruct (t1 s); [destruct (stop s)|]; simpl; lia.
  - unfold heartbeat in H.
    destruct (t2 s) as [ | state | ];
      [destruct (negb (enableHeartbeat a))
      |destruct (stop s); [|destruct (String.eqb _ state); [discriminate|]]
      |]; go_inv; simpl; lia.
  - go_inv. unfold sender, sender_done.
    destruct (t3 s) as [ | m | ] eqn:E3.
    + destruct (QueueManager.pop (queueManager s)) as [msg q]. simpl.
      rewrite Hs. simpl. lia.
    + destruct (dispatch_frame bot (verbose a) m s) as (E1 & _).
      rewrite E1, Hs. simpl.
      destruct (dispatch_calls bot (verbose a) m s) as [->|(ok & ->)];
        rewrite ?length_app; simpl; lia.
    + rewrite E3. lia.
Qed.

(** X8: once [stop] is set the sink is called at most once more, namely
    on the message the sender already holds: if the sender holds [msg]
    when the cleanup starts, the cleanup makes exactly the call of the
    sink on [msg] (none if no sink is registered) and no other; a sender
    that is about to [pop()] drops what it pops and makes no call.
    Whatever is still queued when [run] starts its cleanup is never
    handed to the sink. *)
Theorem cleanup_sends_at_most_one (World CobraConfig : Type)
        (bot : CobraBot World) (a : RunArgs) (steps : list Worker)
        (s s' : State World CobraConfig) :
  shutdown bot a steps s = Go s' ->
  (List.length (sinkCalls s') <= calls_due s)%nat
  /\ ((forall msg, t3 s <> SenderSend msg) ->
      sinkCalls s' = sinkCalls s /\ sentCount s' = sentCount s)
  /\ (forall msg,
         t3 s = SenderSend msg ->
         sinkCalls s'
         = sinkCalls s
             ++ match _onBotMessageCallback bot with
                | Some callback =>
                    [(msg, fst (fst (callback msg (verbose a) (throttled s)
                                              (sink s))))]
                | None => []
                end).
Proof.
  intros H. split; [|split].
  - assert (P : stop s' = true /\ (calls_due s' <= calls_due s)%nat).
    { apply (shutdown_invariant bot a
               (fun x => stop x = true /\ (calls_due x <= calls_due s)%nat)
               steps s).
      - intros w x x' Hx (Hs & Hc).
        destruct (work_calls_due bot a w x Hx Hs) as (Hs' & Hc').
        split; [exact Hs'|lia].
      - exact H.
      - split; [reflexivity|]. unfold calls_due. simpl. lia. }
    destruct P as (_ & P). unfold calls_due in P at 1. lia.
  - intros Hn.
    assert (P : (sinkCalls s' = sinkCalls s /\ sentCount s' = sentCount s) /\
                stop s' = true /\
                (t3 s' = SenderPop \/ t3 s' = SenderDone)).
    { apply (shutdown_invariant bot a
               (fun x => (sinkCalls x = sinkCalls s /\
                          sentCount x = sentCount s) /\
                         stop x = true /\
                         (t3 x = SenderPop \/ t3 x = SenderDone))
               steps s).
      - intros w x x' Hx ((C1 & C2) & Hs & Ht).
        destruct (work_frame bot a w x Hx) as (E & _).
        destruct w; simpl in Hx.
        + go_inv. unfold timer.
          destruct (t1 x); [destruct (stop x) eqn:Hx'|]; simpl;
            rewrite ?Hx'; repeat split; auto.
        + unfold heartbeat in Hx.
          destruct (t2 x) as [ | state | ];
            [destruct (negb (enableHeartbeat a))
            |rewrite Hs in Hx
            |]; go_inv; simpl; repeat split; auto.
        + go_inv. unfold sender, sender_done.
          destruct Ht as [Ht|Ht]; rewrite Ht; [|repeat split; auto].
          destruct (QueueManager.pop (queueManager x)) as [msg q]. simpl.
          rewrite Hs. simpl. repeat split; auto.
      - exact H.
      - simpl. repeat split; auto.
        destruct (t3 s) as [ | m | ]; auto. now destruct (Hn m). }
    apply P.
  - intros msg Ht.
    set (target := sinkCalls s
                     ++ match _onBotMessageCallback bot with
                        | Some callback =>
                            [(msg, fst (fst (callback msg (verbose a)
                                                      (throttled s)
                                                      (sink s))))]
                        | None => []
                        end).
    assert (P : stop s' = true /\
                ((t3 s' = SenderSend msg /\ sinkCalls s' = sinkCalls s /\
                  throttled s' = throttled s /\ sink s' = sink s) \/
                 (t3 s' = SenderDone /\ sinkCalls s' = target))).
    { apply (shutdown_invariant bot a
               (fun x => stop x = true /\
                         ((t3 x = SenderSend msg /\
                           sinkCalls x = sinkCalls s /\
                           throttled x = throttled s /\ sink x = sink s) \/
                          (t3 x = SenderDone /\ sinkCalls x = target)))
               steps s).
      - intros w x x' Hx (Hs & Hd).
        destruct (work_frame bot a w x Hx) as (E & _).
        split; [congruence|].
        destruct w; simpl in Hx.
        + go_inv. unfold timer.
          destruct (t1 x); [destruct (stop x)|]; simpl; exact Hd.
        + unfold heartbeat in Hx.
          destruct (t2 x) as [ | state | ];
            [destruct (negb (enableHeartbeat a))
            |rewrite Hs in Hx
            |]; go_inv; simpl; exact Hd.
        + go_inv. unfold sender, sender_done.
          destruct Hd as [(Hm & C1 & C2 & C3)|(Hm & C1)]; rewrite Hm.
          * right.
            destruct (dispatch_frame bot (verbose a) msg x) as (E1 & _).
            rewrite E1, Hs. simpl. split; [reflexivity|].
            unfold dispatch, target. rewrite C2, C3.
            destruct (_onBotMessageCallback bot) as [callback|].
            -- destruct (callback msg (verbose a) (throttled s) (sink s))
                 as [[ok thr] w].
               destruct ok, (verbose a); simpl; now rewrite C1.
            -- simpl. now rewrite C1, app_nil_r.
          * right. simpl. split; [exact Hm|exact C1].
      - exact H.
      - split; [reflexivity|]. left. simpl. repeat split; auto. }
    destruct P as (_ & [(Hm & _)|(_ & P)]); [|exact P].
    destruct (shutdown_spec bot a steps s) as (x & Ex & _ & _ & _ & _ & F & _).
    rewrite H in Ex. injection Ex as <-.
    unfold finished in F. rewrite Hm in F. discriminate.
Qed.

(** An instance of X8: three messages queued and the sender holding a
    fourth, [JInt 0], when the cleanup starts; one call is made, on
    [JInt 0], and none on the queued ones. *)
Lemma cleanup_sends_at_most_one_witness :
  let bot := setOnBotMessageCallback sink_accepts (newCobraBot unit) in
  let a := bounded_args 3 false in
  let s := set_t3 (SenderSend (JInt 0))
             (set_queueManager
                (QueueManager.mk 10 [JInt 1; JInt 2; JInt 3])
                (start tt a tt)) in
  sinkCalls (reached (shutdown bot a [Sender; Timer] s)) = [(JInt 0, true)].
Proof.
  intros bot a s.
  assert (E : shutdown bot a [Sender; Timer] s
              = Go (reached (shutdown bot a [Sender; Timer] s)))
    by (vm_compute; reflexivity).
  pose proof (proj2 (proj2 (@cleanup_sends_at_most_one unit unit bot a
                              [Sender; Timer] s _ E))
                    (JInt 0) eq_refl) as P.
  vm_compute in P |- *. exact P.
Defined.


(** An instance of X7: a null message and an ordinary one arrive; both
    are counted as received, one sink call is made. *)
Lemma sink_never_sees_null_witness :
  let bot := setOnBotMessageCallback sink_accepts (newCobraBot unit) in
  let sched :=
    mkSchedule
      [handshake ++ [Inbound JNull "p1"; Inbound (JInt 2) "p2";
                     Work Sender; Work Sender; Work Sender; Work Sender]]
      [] in
  let s := final (execute bot tt (bounded_args 1 false) tt sched) in
  receivedCount s = 2 /\
  Forall (fun call => isNull (fst call) = false) (sinkCalls s).
Proof.
  intros bot sched s.
  assert (E : execute bot tt (bounded_args 1 false) tt sched
              = Completed s 1%nat) by (vm_compute; reflexivity).
  split; [vm_compute; reflexivity|].
  exact (proj1 (proj2 (@sink_never_sees_null unit unit bot tt
                         (bounded_args 1 false) tt sched)) s 1%nat E).
Defined.

(* ------------------------------------------------------------------ *)
(** ** Received accounting *)

Lemma step_unthrottled (World CobraConfig : Type) (bot : CobraBot World)
      (a : RunArgs) (act : Action) (s s' : State World CobraConfig) :
  never_throttles bot ->
  step bot a act s = Go s' -> throttled s = false ->
  throttled s' = false /\
  receivedCount s'
  = Nat.iter (List.length (delivered [act])) incr64 (receivedCount s).
Proof.
  intros Hn H T.
  destruct act as [event | msg pos | [ | | ]]; simpl in H.
  - go_inv.
    destruct (eventCallback_frame a event s) as (_ & B2 & _ & B4 & _).
    simpl. split; congruence.
  - go_inv. unfold onMessage.
    destruct (verbose a); simpl; rewrite T; simpl; auto.
  - go_inv. unfold timer. break_match; simpl; auto.
  - unfold heartbeat in H. break_match; go_inv; simpl; auto.
  - go_inv. unfold sender, sender_done.
    destruct (t3 s) as [ | m | ] eqn:E3; simpl; auto.
    + break_match; simpl; auto.
    + assert (D : throttled (dispatch bot (verbose a) m s) = false /\
                  receivedCount (dispatch bot (verbose a) m s)
                  = receivedCount s).
      { unfold dispatch. unfold never_throttles in Hn.
        destruct (_onBotMessageCallback bot) as [callback|]; [|auto].
        rewrite T. specialize (Hn m (verbose a) (sink s)).
        destruct (callback m (verbose a) false (sink s)) as [[ok thr] w].
        simpl in Hn. subst thr. destruct ok, (verbose a); simpl; auto. }
      destruct D as (D1 & D2).
      destruct (stop (dispatch bot (verbose a) m s)); simpl; auto.
Qed.

Lemma sleep_for_unthrottled (World CobraConfig : Type) (bot : CobraBot World)
      (a : RunArgs) (segment : list Action) (s s' : State World CobraConfig) :
  never_throttles bot ->
  sleep_for bot a segment s = Go s' -> throttled s = false ->
  throttled s' = false /\
  receivedCount s'
  = Nat.iter (List.length (delivered segment)) incr64 (receivedCount s).
Proof.
  intros Hn. revert s. induction segment as [|act rest IH]; intros s H T;
    simpl in H.
  - go_inv. auto.
  - destruct (step bot a act s) as [s1|] eqn:E; simpl in H; [|discriminate].
    destruct (step_unthrottled bot a act s Hn E T) as (T1 & R1).
    destruct (IH s1 H T1) as (T' & R').
    split; [exact T'|]. rewrite R', R1.
    change (act :: rest) with ([act] ++ rest).
    rewrite delivered_app, length_app, Nat.add_comm.
    symmetry. apply Nat.iter_add.
Qed.

(** X9: with a sink that never sets [throttled] (or with none), nothing
    is dropped at the subscription callback: when [run] returns after [n]
    ticks, [throttled] is clear and [receivedCount] is the number of
    messages delivered during these [n] ticks, modulo 2^64. *)
Theorem received_counts_every_message (World CobraConfig : Type)
        (bot : CobraBot World) (config : CobraConfig) (a : RunArgs)
        (world : World) (sched : Schedule) (s : State World CobraConfig)
        (n : nat) :
  never_throttles bot ->
  execute bot config a world sched = Completed s n ->
  throttled s = false /\
  receivedCount s
  = Z.of_nat (List.length
                (delivered (List.concat (firstn n (ticks sched)))))
      mod UINT64_MOD.
Proof.
  intros Hn E.
  destruct (execute_completed _ _ _ _ _ E) as (x & Ex & Es).
  assert (A : after_ticks bot a (ticks sched) n (start config a world) = Go x).
  { unfold supervise in Ex. destruct (runtime a =? -1).
    - destruct (supervise_forever_ended _ _ _ _ _ Ex) as (k & -> & _ & _ & A).
      exact A.
    - destruct (supervise_for_ended _ _ _ _ _ _ Ex) as (k & -> & _ & _ & _ & A).
      exact A. }
  unfold after_ticks in A.
  destruct (sleep_for_unthrottled bot a _ _ Hn A eq_refl) as (T & R).
  assert (P : throttled s = false /\ receivedCount s = receivedCount x).
  { apply (shutdown_invariant bot a
             (fun y => throttled y = false /\
                       receivedCount y = receivedCount x)
             (joining sched) x); auto.
    intros w y y' Hy (Ty & Ry).
    destruct (step_unthrottled bot a (Work w) y Hn Hy Ty) as (T' & R').
    split; [exact T'|]. rewrite R'. exact Ry. }
  destruct P as (P1 & P2). split; [exact P1|].
  rewrite P2, R. simpl receivedCount.
  rewrite iter_incr64 by (unfold uint64, UINT64_MOD; lia).
  reflexivity.
Qed.

(** An instance of X9: three messages in two ticks, with a sink that
    accepts everything and leaves [throttled] as it finds it. *)
Lemma received_counts_every_message_witness :
  let bot := setOnBotMessageCallback sink_accepts (newCobraBot unit) in
  let sched :=
    mkSchedule
      [handshake ++ [Inbound (JInt 1) "p1"; Work Sender; Work Sender];
       [Inbound (JInt 2) "p2"; Inbound (JInt 3) "p3"]]
      [] in
  receivedCount (final (execute bot tt (bounded_args 2 false) tt sched)) = 3.
Proof.
  intros bot sched.
  assert (N : never_throttles bot) by (intros msg verbose w; reflexivity).
  assert (E : execute bot tt (bounded_args 2 false) tt sched
              = Completed
                  (final (execute bot tt (bounded_args 2 false) tt sched))
                  2%nat)
    by (vm_compute; reflexivity).
  pose proof (proj2 (@received_counts_every_message unit unit bot tt
                       (bounded_args 2 false) tt sched _ 2%nat N E)) as P.
  vm_compute in P |- *. exact P.
Defined.

(* ------------------------------------------------------------------ *)
(** ** The verbose flag *)

Section Verbose.

Context {World CobraConfig : Type}.
Variable bot : CobraBot World.
Variable a : RunArgs.
Variables v v' : bool.
Hypothesis sink_ignores_verbose : ignores_verbose bot.

Let St := State World CobraConfig.

Lemma unlogged_spdlog (lvl lvl' : Level) (fmt fmt' : string)
      (args args' : list Arg) (s s' : St) :
  unlogged s = unlogged s' ->
  unlogged (spdlog lvl fmt args s) = unlogged (spdlog lvl' fmt' args' s').
Proof.
  destruct s, s'. unfold unlogged, spdlog, set_log. simpl.
  intros H. injection H as -> -> -> -> -> -> -> -> -> -> -> ->. reflexivity.
Qed.

Lemma unlogged_headers (hs : list (string * string)) (s s' : St) :
  unlogged s = unlogged s' ->
  unlogged
    (fold_left
       (fun acc it => spdlog info "{}: {}" [AStr (fst it); AStr (snd it)] acc)
       hs s)
  = unlogged
      (fold_left
         (fun acc it =>
            spdlog info "{}: {}" [AStr (fst it); AStr (snd it)] acc)
         hs s').
Proof.
  revert s s'. induction hs as [|h hs IH]; intros s s' H; simpl;
    [exact H|].
  apply IH. now apply unlogged_spdlog.
Qed.

Lemma step_unlogged (act : Action) (s s' : St) :
  unlogged s = unlogged s' ->
  unlogged_progress (step bot (with_verbose v a) act s)
  = unlogged_progress (step bot (with_verbose v' a) act s').
Proof.
  intros H.
  destruct act as [event | msg pos | w]; simpl.
  - f_equal. unfold eventCallback.
    destruct (type event);
      try (apply unlogged_spdlog; exact H);
      try (apply unlogged_headers; apply unlogged_spdlog; exact H);
      destruct s as [sc rc st th fe q c x1 x2 x3 sk lg calls],
               s' as [sc' rc' st' th' fe' q' c' x1' x2' x3' sk' lg' calls'];
      unfold unlogged, spdlog, set_log, set_conn, set_fatalCobraError in *;
      simpl in *;
      injection H as <- <- <- <- <- <- <- <- <- <- <- <-; reflexivity.
  - f_equal.
    destruct s as [sc rc st th fe q c x1 x2 x3 sk lg calls],
             s' as [sc' rc' st' th' fe' q' c' x1' x2' x3' sk' lg' calls'].
    unfold unlogged, set_log in H. simpl in H.
    injection H as <- <- <- <- <- <- <- <- <- <- <- <-.
    unfold onMessage.
    destruct v, v'; simpl; destruct th; reflexivity.
  - destruct s as [sc rc st th fe q c x1 x2 x3 sk lg calls],
             s' as [sc' rc' st' th' fe' q' c' x1' x2' x3' sk' lg' calls'].
    unfold unlogged, set_log in H. simpl in H.
    injection H as <- <- <- <- <- <- <- <- <- <- <- <-.
    destruct w; simpl.
    + unfold timer. simpl. destruct x1; [destruct st|]; reflexivity.
    + unfold heartbeat. cbn [t2 stop receivedCount sentCount enableHeartbeat
                               with_verbose].
      destruct x2 as [ | state | ];
        [destruct (negb (enableHeartbeat a))
        |destruct st; [|destruct (String.eqb (snapshot rc sc) state)]
        |]; reflexivity.
    + f_equal. unfold sender, sender_done, dispatch. simpl.
      destruct x3 as [ | m | ].
      * destruct (QueueManager.pop q) as [msg q1]. simpl.
        destruct st; [reflexivity|]. destruct (isNull msg); reflexivity.
      * unfold ignores_verbose in sink_ignores_verbose.
        destruct (_onBotMessageCallback bot) as [callback|].
        -- rewrite (sink_ignores_verbose m v th sk),
             (sink_ignores_verbose m v' th sk).
           destruct (callback m false th sk) as [[ok thr] w].
           destruct ok, v, v'; simpl; destruct st; reflexivity.
        -- simpl. destruct st; reflexivity.
      * reflexivity.
Qed.

Lemma sleep_for_unlogged (segment : list Action) (s s' : St) :
  unlogged s = unlogged s' ->
  unlogged_progress (sleep_for bot (with_verbose v a) segment s)
  = unlogged_progress (sleep_for bot (with_verbose v' a) segment s').
Proof.
  revert s s'. induction segment as [|act rest IH]; intros s s' H;
    cbn [sleep_for].
  - cbn [unlogged_progress]. now rewrite H.
  - pose proof (step_unlogged act H) as E.
    destruct (step bot (with_verbose v a) act s) as [s1|code s1],
             (step bot (with_verbose v' a) act s') as [s1'|code' s1'];
      cbn [and_then unlogged_progress] in *; try discriminate E.
    + apply IH. congruence.
    + exact E.
Qed.

Lemma fatal_unlogged (s s' : St) :
  unlogged s = unlogged s' -> fatalCobraError s = fatalCobraError s'.
Proof.
  intros H.
  change (fatalCobraError (unlogged s) = fatalCobraError (unlogged s')).
  now rewrite H.
Qed.

Lemma supervise_forever_unlogged (segments : list (list Action)) (n : nat)
      (s s' : St) :
  unlogged s = unlogged s' ->
  unlogged_supervision (supervise_forever bot (with_verbose v a) segments n s)
  = unlogged_supervision
      (supervise_forever bot (with_verbose v' a) segments n s').
Proof.
  revert n s s'. induction segments as [|segment rest IH]; intros n s s' H;
    cbn [supervise_forever].
  - cbn [unlogged_supervision]. now rewrite H.
  - pose proof (sleep_for_unlogged segment H) as E.
    destruct (sleep_for bot (with_verbose v a) segment s) as [s1|code s1],
             (sleep_for bot (with_verbose v' a) segment s') as [s1'|code' s1'];
      cbn [unlogged_progress] in E; try discriminate E.
    + assert (E1 : unlogged s1 = unlogged s1') by congruence.
      rewrite (fatal_unlogged E1).
      destruct (fatalCobraError s1'); [|now apply IH].
      cbn [unlogged_supervision]. now rewrite E1.
    + cbn [unlogged_supervision]. congruence.
Qed.

Lemma supervise_for_unlogged (segments : list (list Action)) (i : Z)
      (n : nat) (s s' : St) :
  unlogged s = unlogged s' ->
  unlogged_supervision (supervise_for bot (with_verbose v a) i segments n s)
  = unlogged_supervision
      (supervise_for bot (with_verbose v' a) i segments n s').
Proof.
  revert i n s s'. induction segments as [|segment rest IH];
    intros i n s s' H; cbn [supervise_for runtime with_verbose];
    destruct (i <? runtime a); cbn [unlogged_supervision];
    try (now rewrite H).
  pose proof (sleep_for_unlogged segment H) as E.
  destruct (sleep_for bot (with_verbose v a) segment s) as [s1|code s1],
           (sleep_for bot (with_verbose v' a) segment s') as [s1'|code' s1'];
    cbn [unlogged_progress] in E; try discriminate E.
  - assert (E1 : unlogged s1 = unlogged s1') by congruence.
    rewrite (fatal_unlogged E1).
    destruct (fatalCobraError s1'); [|now apply IH].
    cbn [unlogged_supervision]. now rewrite E1.
  - cbn [unlogged_supervision]. congruence.
Qed.

Lemma shutdown_unlogged (steps : list Worker) (s s' : St) :
  unlogged s = unlogged s' ->
  unlogged_progress (shutdown bot (with_verbose v a) steps s)
  = unlogged_progress (shutdown bot (with_verbose v' a) steps s').
Proof.
  intros H. rewrite !shutdown_as_segment. apply sleep_for_unlogged.
  destruct s as [sc rc st th fe q c x1 x2 x3 sk lg calls],
           s' as [sc' rc' st' th' fe' q' c' x1' x2' x3' sk' lg' calls'].
  unfold unlogged, set_log in *. simpl in *.
  injection H as <- <- <- <- <- <- <- <- <- <- <- <-. reflexivity.
Qed.

Lemma execute_unlogged (config : CobraConfig) (world : World)
      (sched : Schedule) :
  unlogged_execution (execute bot config (with_verbose v a) world sched)
  = unlogged_execution (execute bot config (with_verbose v' a) world sched).
Proof.
  unfold execute.
  change (start config (with_verbose v a) world) with (start config a world).
  change (start config (with_verbose v' a) world) with (start config a world).
  assert (E : unlogged_supervision
                (supervise bot (with_verbose v a) (ticks sched)
                           (start config a world))
              = unlogged_supervision
                  (supervise bot (with_verbose v' a) (ticks sched)
                             (start config a world))).
  { unfold supervise. cbn [runtime with_verbose].
    destruct (runtime a =? -1).
    - now apply supervise_forever_unlogged.
    - now apply supervise_for_unlogged. }
  destruct (supervise bot (with_verbose v a) (ticks sched)
                      (start config a world)) as [s n|code s|s n],
           (supervise bot (with_verbose v' a) (ticks sched)
                      (start config a world)) as [s' n'|code' s'|s' n'];
    cbn [unlogged_supervision] in E; try discriminate E.
  - assert (E1 : unlogged s = unlogged s') by congruence.
    assert (En : n = n') by congruence. subst n'.
    pose proof (shutdown_unlogged (joining sched) E1) as D.
    destruct (shutdown bot (with_verbose v a) (joining sched) s)
      as [x|c x],
             (shutdown bot (with_verbose v' a) (joining sched) s')
      as [x'|c' x']; cbn [unlogged_progress unlogged_execution] in *;
      try discriminate D.
    + congruence.
    + congruence.
  - cbn [unlogged_execution]. congruence.
  - cbn [unlogged_execution]. congruence.
Qed.

End Verbose.

(** X10: the [verbose] argument of [run] changes nothing but the log.
    With a sink whose effect does not depend on the [verbose] it is
    handed (or with none), two runs that differ in [verbose] alone end
    the same way (returned, exited, still running), after the same number
    of ticks, in states that differ in the log at most; so [run] returns
    the same value. *)
Theorem verbose_changes_only_the_log (World CobraConfig : Type)
        (bot : CobraBot World) (config : CobraConfig) (a : RunArgs)
        (world : World) (sched : Schedule) (v v' : bool) :
  ignores_verbose bot ->
  unlogged_execution (execute bot config (with_verbose v a) world sched)
  = unlogged_execution (execute bot config (with_verbose v' a) world sched)
  /\ run bot config (with_verbose v a) world sched
     = run bot config (with_verbose v' a) world sched.
Proof.
  intros Hi.
  pose proof (@execute_unlogged _ _ bot a v v' Hi config world sched) as E.
  split; [exact E|]. unfold run.
  destruct (execute bot config (with_verbose v a) world sched)
    as [s n|code s|s n],
           (execute bot config (with_verbose v' a) world sched)
    as [s' n'|code' s'|s' n']; cbn [unlogged_execution] in E;
    try discriminate E.
  - assert (E1 : unlogged s = unlogged s') by congruence.
    f_equal. unfold result. rewrite (fatal_unlogged E1).
    change (sentCount s) with (sentCount (unlogged s)).
    now rewrite E1.
  - congruence.
  - reflexivity.
Qed.

(** An instance of X10: one second of a run with three messages, with
    and without [verbose]. *)
Lemma verbose_changes_only_the_log_witness :
  let bot := setOnBotMessageCallback sink_accepts (newCobraBot unit) in
  let sched :=
    mkSchedule
      [handshake ++ [Inbound (JInt 1) "p1"; Inbound (JInt 2) "p2";
                     Inbound (JInt 3) "p3";
                     Work Sender; Work Sender; Work Sender; Work Sender]]
      [] in
  run bot tt (with_verbose true (bounded_args 1 false)) tt sched
  = run bot tt (with_verbose false (bounded_args 1 false)) tt sched.
Proof.
  intros bot sched.
  apply (@verbose_changes_only_the_log unit unit bot tt
           (bounded_args 1 false) tt sched true false).
  intros msg v thr w. reflexivity.
Defined.

(* ------------------------------------------------------------------ *)
(** ** The threads' last lines *)

Lemma logged_app (fmt : string) (l1 l2 : list LogLine) :
  logged fmt (l1 ++ l2) = (logged fmt l1 + logged fmt l2)%nat.
Proof.
  induction l1 as [|line l1 IH]; simpl; auto. rewrite IH. lia.
Qed.

Lemma logged_headers (World CobraConfig : Type) (fmt : string)
      (hs : list (string * string)) (s : State World CobraConfig) :
  String.eqb "{}: {}" fmt = false ->
  logged fmt
    (log (fold_left
            (fun acc it =>
               spdlog info "{}: {}" [AStr (fst it); AStr (snd it)] acc)
            hs s))
  = logged fmt (log s).
Proof.
  intros Hf. revert s. induction hs as [|h hs IH]; intros s; simpl; auto.
  rewrite IH. simpl. rewrite logged_app. cbn [logged format].
  rewrite Hf. lia.
Qed.

Lemma eventCallback_logged (World CobraConfig : Type) (a : RunArgs)
      (event : CobraEvent) (s : State World CobraConfig) (fmt : string) :
  In fmt ["timer thread done"; "sender thread done";
          "heartbeat thread done"] ->
  logged fmt (log (eventCallback a event s)) = logged fmt (log s).
Proof.
  intros Hin.
  assert (K : forall lvl f args,
             String.eqb f fmt = false ->
             logged fmt (log (spdlog lvl f args s)) = logged fmt (log s)).
  { intros lvl f args Hf. simpl. rewrite logged_app. cbn [logged format].
    rewrite Hf. lia. }
  unfold eventCallback.
  destruct Hin as [<-|[<-|[<-|[]]]];
    destruct (type event);
    try (rewrite logged_headers by reflexivity);
    try (simpl log; apply K; reflexivity);
    try (apply K; reflexivity).
Qed.

Lemma step_log_tells_returns (World CobraConfig : Type)
      (bot : CobraBot World) (a : RunArgs) (act : Action)
      (s s' : State World CobraConfig) :
  step bot a act s = Go s' ->
  log_tells_returns a s -> log_tells_returns a s'.
Proof.
  intros H (I1 & I2 & I3 & I4 & I5).
  destruct act as [event | msg pos | w]; simpl in H.
  - go_inv.
    destruct (eventCallback_frame a event s)
      as (_ & _ & B3 & _ & _ & B6 & B7 & B8 & _).
    unfold log_tells_returns, heartbeat_armed, finished in *.
    rewrite !eventCallback_logged by (simpl; auto).
    rewrite B3, B6, B7, B8. repeat split; try tauto.
  - go_inv.
    destruct s as [sc rc st th fe q c x1 x2 x3 sk lg calls].
    unfold log_tells_returns, heartbeat_armed, finished, onMessage in *.
    simpl in *.
    destruct (verbose a); simpl; destruct th; simpl;
      rewrite ?logged_app; simpl; rewrite ?Nat.add_0_r;
      repeat split; try tauto.
  - destruct s as [sc rc st th fe q c x1 x2 x3 sk lg calls].
    unfold log_tells_returns, heartbeat_armed, finished in *.
    simpl in *.
    destruct w; simpl in H.
    + go_inv. unfold timer. simpl.
      destruct x1; [destruct st|]; simpl;
        rewrite ?logged_app; simpl; rewrite ?Nat.add_0_r;
        repeat split; try tauto; try lia; try discriminate;
        try (intros _; now destruct I5).
    + unfold heartbeat in H.
      cbn [t2 stop receivedCount sentCount] in H.
      destruct x2 as [ | state | ];
        [destruct (enableHeartbeat a) eqn:Eh
        |destruct st; [|destruct (String.eqb (snapshot rc sc) state)]
        |]; simpl in H; go_inv; simpl in *;
        rewrite ?logged_app; simpl; rewrite ?Nat.add_0_r, ?I4;
        repeat split; try tauto; try lia; try discriminate;
        try (intros _; now destruct I5).
    + go_inv. unfold sender, sender_done, dispatch. simpl.
      destruct x3 as [ | m | ].
      * destruct (QueueManager.pop q) as [msg q1]. simpl.
        destruct st; [|destruct (isNull msg)]; simpl;
          rewrite ?logged_app; simpl; rewrite ?Nat.add_0_r;
          repeat split; try tauto; try lia; try discriminate.
      * destruct (_onBotMessageCallback bot) as [callback|].
        -- destruct (callback m (verbose a) th sk) as [[ok thr] w].
           destruct ok, (verbose a); simpl; destruct st; simpl;
             rewrite ?logged_app; simpl; rewrite ?Nat.add_0_r;
             repeat split; try tauto; try lia; try discriminate.
        -- simpl. destruct st; simpl;
             rewrite ?logged_app; simpl; rewrite ?Nat.add_0_r;
             repeat split; try tauto; try lia; try discriminate.
      * repeat split; try tauto.
Qed.

(** X11: each worker thread writes its last line exactly once, and only
    after [stop] is set.  In the state [run] returns from, "timer thread
    done" and "sender thread done" are in the log once each, and
    "heartbeat thread done" once if the heartbeat is enabled and not at
    all if it is disabled (a disabled heartbeat returns before its loop,
    without a line).  While supervision is going on none of the three
    lines is in the log. *)
Theorem threads_log_their_return_once (World CobraConfig : Type)
        (bot : CobraBot World) (config : CobraConfig) (a : RunArgs)
        (world : World) (sched : Schedule) :
  (forall s n,
      execute bot config a world sched = Completed s n ->
      logged "timer thread done" (log s) = 1%nat /\
      logged "sender thread done" (log s) = 1%nat /\
      logged "heartbeat thread done" (log s)
      = (if enableHeartbeat a then 1 else 0)%nat)
  /\ (forall s n,
         execute bot config a world sched = Unfinished s n ->
         logged "timer thread done" (log s) = 0%nat /\
         logged "sender thread done" (log s) = 0%nat /\
         logged "heartbeat thread done" (log s) = 0%nat).
Proof.
  assert (S0 : log_tells_returns a (start config a world)).
  { unfold log_tells_returns, heartbeat_armed. simpl.
    repeat split; auto; discriminate. }
  split.
  - intros s n E.
    assert (P : log_tells_returns a s).
    { apply (execute_invariant bot config a world
               (@log_tells_returns World CobraConfig a) sched)
        with (n := n).
      - intros act x x' _. apply step_log_tells_returns.
      - intros w x x'. apply (@step_log_tells_returns _ _ bot a (Work w)).
      - intros x (I1 & I2 & I3 & I4 & _).
        unfold log_tells_returns, heartbeat_armed, finished in *.
        simpl. repeat split; auto; discriminate.
      - exact S0.
      - exact E. }
    destruct (execute_completed _ _ _ _ _ E) as (x & Ex & _).
    destruct (execute_ended _ _ _ _ _ Ex)
      as (s' & E' & _ & _ & _ & F1 & F2 & F3 & _).
    rewrite E in E'. injection E' as <-.
    destruct P as (I1 & I2 & I3 & _).
    rewrite F1 in I1. rewrite F2 in I3. rewrite F3 in I2.
    repeat split; assumption.
  - intros s n E. unfold execute in E.
    assert (H : match supervise bot a (ticks sched)
                                (start config a world) with
                | Ended x _ | Ongoing x _ =>
                    log_tells_returns a x /\ stop x = false
                | Killed _ _ => True
                end).
    { apply (supervise_invariant bot a
               (fun x : State World CobraConfig =>
                  log_tells_returns a x /\ stop x = false)
               (ticks sched)).
      - intros act x x' _ Hx (P1 & P2). split.
        + exact (@step_log_tells_returns _ _ bot a act x x' Hx P1).
        + rewrite (@step_stop _ _ bot a act x x' Hx). exact P2.
      - split; [exact S0|reflexivity]. }
    destruct (supervise bot a (ticks sched) (start config a world))
      as [x m|c x|x m]; try discriminate.
    + destruct (shutdown bot a (joining sched) x); discriminate.
    + injection E as <- <-.
      destruct H as ((I1 & I2 & I3 & _ & I5) & Hs).
      destruct (I5 Hs) as (F1 & F2 & F3).
      rewrite F1 in I1. rewrite F2 in I2.
      repeat split; try assumption.
      rewrite I3. destruct (finished Heartbeat x); [|reflexivity].
      now rewrite F3.
Qed.

(** An instance of X11: a run of two seconds with the heartbeat
    enabled. *)
Lemma threads_log_their_return_once_witness :
  let bot := setOnBotMessageCallback sink_accepts (newCobraBot unit) in
  let sched :=
    mkSchedule
      [[Work Heartbeat; Work Heartbeat; Work Timer] ++ handshake
         ++ [Inbound (JInt 1) "p1"; Work Sender; Work Sender];
       [Work Timer; Inbound (JInt 2) "p2"; Work Sender; Work Sender]]
      [Timer; Sender] in
  logged "heartbeat thread done"
         (log (final (execute bot tt (bounded_args 2 true) tt sched)))
  = 1%nat.
Proof.
  intros bot sched.
  assert (E : execute bot tt (bounded_args 2 true) tt sched
              = Completed
                  (final (execute bot tt (bounded_args 2 true) tt sched))
                  2%nat)
    by (vm_compute; reflexivity).
  exact (proj2 (proj2 (proj1 (@threads_log_their_return_once unit unit bot
                                tt (bounded_args 2 true) tt sched) _ _ E))).
Defined.
